(** * Mobile Mesh Sentinel 2.0: signaling server and mesh node

    A shallow embedding of [mms_signaling_server.py] (the membership
    registry behind the Flask endpoints and its reaper) and of
    [mms_node_beta.py] (the peer agent: discovery merge, connection handler
    and on-demand send), with the properties of the specification proved or
    refuted against it.

    Conventions.
    - A [datetime] is an integer number of microseconds ([Z]); a
      [timedelta] is a difference of two of them.  [datetime.now()] reads a
      clock oracle carried by the state, one reading per call.
    - The body of a request is the Python value [request.get_json()]
      returns: [None], a bool, an int, a float (an IEEE double, [NaN] and
      the infinities included, which [json.loads] accepts), a str, a list
      or a dict with string keys.
    - A [str] is held as its UTF-8 bytes; its characters are the code
      points those bytes encode.
    - [with node_lock:] makes each handler one atomic step, so a handler is
      one function on the state.
    - A [dict] that the program fills and walks ([active_nodes],
      [self.peers]) is a [Py.dict]: a [gmap] together with the order in
      which its keys were first inserted, which is the order in which
      [items()] yields them. *)

From stdpp Require Import gmap strings list fin_maps pretty.
From Stdlib Require Import ZArith Lia SpecFloat.

Local Open Scope Z_scope.
Local Set Warnings "-register-all".

(** ** Python values that come out of [json.loads] *)

Inductive json : Type :=
  | JNull
  | JBool (b : bool)
  | JNum (z : Z)
  | JFloat (f : spec_float)
  | JStr (s : string)
  | JArr (l : list json)
  | JObj (m : gmap string json).

(** Exceptions the modelled code can meet. *)
Inductive exn : Type :=
  | TypeError
  | KeyError
  | AttributeError
  | ValueError
  | OSError.

Inductive outcome (A : Type) : Type :=
  | Ret (a : A)
  | Raise (e : exn).
Arguments Ret {A} a.
Arguments Raise {A} e.

(** The keys of a Python [dict]: hashable values up to the equality a
    lookup uses, so that [True], [1] and [1.0] are one key, as are
    [False], [0], [0.0] and [-0.0].  A float that is an integer shares
    the key of that integer; any other finite float is
    [(-1)^negative * m / 2^n] with [m] odd; [json.loads] yields one and
    the same [NaN] object each time, which a lookup finds by identity,
    so [NaN] is one key too. *)
Inductive pykey : Type :=
  | KNone
  | KNum (z : Z)
  | KFrac (negative : bool) (m : positive) (n : positive)
  | KInf (negative : bool)
  | KNaN
  | KStr (s : string).

Global Instance pykey_eq_dec : EqDecision pykey.
Proof. solve_decision. Defined.

Global Instance pykey_countable : Countable pykey.
Proof.
  refine (inj_countable'
    (λ k, match k with
          | KNone => inl ()
          | KNum z => inr (inl z)
          | KFrac s m n => inr (inr (inl (s, m, n)))
          | KInf s => inr (inr (inr (inl (Some s))))
          | KNaN => inr (inr (inr (inl None)))
          | KStr s => inr (inr (inr (inr s)))
          end)
    (λ x, match x with
          | inl _ => KNone
          | inr (inl z) => KNum z
          | inr (inr (inl (s, m, n))) => KFrac s m n
          | inr (inr (inr (inl (Some s)))) => KInf s
          | inr (inr (inr (inl None))) => KNaN
          | inr (inr (inr (inr s))) => KStr s
          end) _).
  by intros [].
Defined.

Module Py.

(** [bool(v)]: what [if v:] and [not v] test.  Of the floats only the
    two zeros are false. *)
Definition truthy (v : json) : bool :=
  match v with
  | JNull => false
  | JBool b => b
  | JNum z => negb (z =? 0)
  | JFloat (S754_zero _) => false
  | JFloat _ => true
  | JStr s => negb (String.eqb s "")
  | JArr l => negb (Nat.eqb (length l) 0)
  | JObj m => negb (Nat.eqb (size m) 0)
  end.

(** Halve [m] as long as it is even, at most [n] times: what is left of
    [m], and how many halvings are still owed. *)
Fixpoint halve (m : positive) (n : nat) : positive * nat :=
  match n, m with
  | S n', xO m' => halve m' n'
  | _, _ => (m, n)
  end.

(** The key of a float: the double [(-1)^s * m * 2^e] by its value. *)
Definition float_key (f : spec_float) : pykey :=
  match f with
  | S754_zero _ => KNum 0
  | S754_infinity s => KInf s
  | S754_nan => KNaN
  | S754_finite s m e =>
      let signed z := if s then - z else z in
      match e with
      | Z.neg p =>
          match halve m (Pos.to_nat p) with
          | (m', O) => KNum (signed (Z.pos m'))
          | (m', S n) => KFrac s m' (Pos.of_succ_nat n)
          end
      | _ => KNum (signed (Z.pos m * 2 ^ e))
      end
  end.

(** The dictionary key of a value; lists and dicts are unhashable. *)
Definition key_of (v : json) : option pykey :=
  match v with
  | JNull => Some KNone
  | JBool b => Some (KNum (if b then 1 else 0))
  | JNum z => Some (KNum z)
  | JFloat f => Some (float_key f)
  | JStr s => Some (KStr s)
  | JArr _ | JObj _ => None
  end.

(** [hash(v)] as the dictionary operations use it. *)
Definition hash (v : json) : outcome pykey :=
  match key_of v with
  | Some k => Ret k
  | None => Raise TypeError
  end.

(** [k == v] for a stored key [k] and an arbitrary value [v]: equal
    values have equal keys, except that [NaN == NaN] is false, also of
    one and the same object. *)
Definition key_eqb (k : pykey) (v : json) : bool :=
  bool_decide (key_of v = Some k) && negb (bool_decide (k = KNaN)).

Definition is_str (s : string) (v : json) : bool :=
  match v with
  | JStr s' => String.eqb s' s
  | _ => false
  end.

(** [s in v] for a string [s]: key test on a dict, element test on a
    list, substring test on a string, [TypeError] otherwise. *)
Definition contains (v : json) (s : string) : outcome bool :=
  match v with
  | JObj m => Ret (bool_decide (is_Some (m !! s)))
  | JArr l => Ret (existsb (is_str s) l)
  | JStr t => Ret (match String.index 0 s t with
                    | Some _ => true
                    | None => false
                    end)
  | JNull | JBool _ | JNum _ | JFloat _ => Raise TypeError
  end.

(** [v[s]] for a string [s]. *)
Definition getitem (v : json) (s : string) : outcome json :=
  match v with
  | JObj m => match m !! s with
              | Some x => Ret x
              | None => Raise KeyError
              end
  | _ => Raise TypeError
  end.

(** [v.get(s, d)]; only dicts have the method. *)
Definition get (v : json) (s : string) (d : json) : outcome json :=
  match v with
  | JObj m => Ret (default d (m !! s))
  | _ => Raise AttributeError
  end.

(** A UTF-8 continuation byte, [10xxxxxx]. *)
Definition continuation (c : Ascii.ascii) : bool :=
  match c with
  | Ascii.Ascii _ _ _ _ _ _ b6 b7 => b7 && negb b6
  end.

(** The characters of a string: each code point is a leading byte with
    the continuation bytes that follow it. *)
Fixpoint chars (s : string) : list string :=
  match s with
  | EmptyString => []
  | String c r =>
      match chars r with
      | String c' r' :: rest =>
          if continuation c' then String c (String c' r') :: rest
          else String c EmptyString :: String c' r' :: rest
      | rest => String c EmptyString :: rest
      end
  end.

(** [len(v)]; the length of a string is the number of its characters. *)
Definition len (v : json) : outcome nat :=
  match v with
  | JStr s => Ret (length (chars s))
  | JArr l => Ret (length l)
  | JObj m => Ret (size m)
  | JNull | JBool _ | JNum _ | JFloat _ => Raise TypeError
  end.

(** The items [for x in v] runs through: the elements of a list, the
    characters of a string, the keys of a dict.  (The keys of a parsed
    object come here in the order of [map_to_list]; the one loop of the
    program that could walk such a dict stops at its first key, whichever
    it is.) *)
Definition iter (v : json) : outcome (list json) :=
  match v with
  | JArr l => Ret l
  | JStr s => Ret (JStr <$> chars s)
  | JObj m => Ret (JStr <$> (map_to_list m).*1)
  | JNull | JBool _ | JNum _ | JFloat _ => Raise TypeError
  end.

(** [all(f in v for f in fields)], left to right, stopping at the first
    failure. *)
Fixpoint all_in (fields : list string) (v : json) : outcome bool :=
  match fields with
  | [] => Ret true
  | f :: fs =>
      match contains v f with
      | Ret true => all_in fs v
      | Ret false => Ret false
      | Raise e => Raise e
      end
  end.

(** The keys of the falsy hashable values: [None], [0] (and [False]) and
    the empty string. *)
Definition falsy_key (k : pykey) : Prop :=
  k = KNone ∨ k = KNum 0 ∨ k = KStr "".

(** *** Dictionaries

    A [dict] maps its keys to values and keeps the keys in the order in
    which they were first inserted.  [order] is that order when it lists
    the keys of [mapping] once each; a pair whose list does not is read
    in the order of [map_to_list], so that every pair stands for some
    dictionary. *)
Record dict (V : Type) : Type := mkDict {
  mapping : gmap pykey V;
  order : list pykey
}.
Arguments mkDict {V} mapping order.
Arguments mapping {V} d.
Arguments order {V} d.

Definition listed {V} (d : dict V) : Prop :=
  NoDup (order d) ∧ list_to_set (order d) =@{gset pykey} dom (mapping d).

Global Instance listed_dec {V} (d : dict V) : Decision (listed d).
Proof. unfold listed. apply _. Defined.

Global Instance dict_empty {V} : Empty (dict V) := mkDict ∅ [].

(** [list(d.keys())] *)
Definition keys {V} (d : dict V) : list pykey :=
  if bool_decide (listed d) then order d else (map_to_list (mapping d)).*1.

(** [list(d.items())] *)
Definition items {V} (d : dict V) : list (pykey * V) :=
  omap (λ k, (k,.) <$> mapping d !! k) (keys d).

(** [d[k] = v]: a new key goes to the end, a key that is there keeps its
    place. *)
Definition setitem {V} (k : pykey) (v : V) (d : dict V) : dict V :=
  mkDict (<[k := v]> (mapping d))
         (match mapping d !! k with
          | Some _ => keys d
          | None => keys d ++ [k]
          end).

(** [del d[k]] *)
Definition delitem {V} (k : pykey) (d : dict V) : dict V :=
  mkDict (delete k (mapping d)) (filter (λ k', k' ≠ k) (keys d)).

End Py.

(** ** A state monad with exceptions

    State changes made before an exception is raised persist, as they do
    in Python. *)

Definition M (S A : Type) : Type := S → outcome A * S.

Definition ret {S A} (a : A) : M S A := λ s, (Ret a, s).

Definition bind {S A B} (c : M S A) (k : A → M S B) : M S B :=
  λ s, match c s with
       | (Ret a, s') => k a s'
       | (Raise e, s') => (Raise e, s')
       end.

Definition lift {S A} (o : outcome A) : M S A := λ s, (o, s).

Definition gets {S A} (f : S → A) : M S A := λ s, (Ret (f s), s).

Definition modify {S} (f : S → S) : M S unit := λ s, (Ret tt, f s).

(** [try: c  except Exception as e: h e] *)
Definition try_except {S A} (c : M S A) (h : exn → M S A) : M S A :=
  λ s, match c s with
       | (Ret a, s') => (Ret a, s')
       | (Raise e, s') => h e s'
       end.

Notation "x <- c ;; k" := (bind c (λ x, k))
  (at level 100, c at next level, right associativity).
Notation "c ;; k" := (bind c (λ _, k))
  (at level 100, right associativity).

(** [for x in l: body x] *)
Fixpoint for_each {S A} (l : list A) (body : A → M S unit) : M S unit :=
  match l with
  | [] => ret tt
  | x :: r => body x ;; for_each r body
  end.

(** [[f x for x in l]] *)
Fixpoint map_m {S A B} (f : A → M S B) (l : list A) : M S (list B) :=
  match l with
  | [] => ret []
  | x :: r => y <- f x ;; ys <- map_m f r ;; ret (y :: ys)
  end.

(** ** The signaling server *)

Module Server.

(** [class Node] *)
Record Node : Type := mkNode {
  node_id : json;
  ip_address : string;
  port : json;
  public_key : json;
  last_heartbeat : Z;
  registered_at : Z
}.

Definition set_last_heartbeat (t : Z) (n : Node) : Node :=
  mkNode (node_id n) (ip_address n) (port n) (public_key n) t
         (registered_at n).

(** What [Node.to_dict] returns.  [last_seen] holds the datetime that
    [isoformat()] renders; [uptime_seconds] holds the timedelta that
    [total_seconds()] renders. *)
Record NodeDict : Type := mkNodeDict {
  d_node_id : json;
  d_ip_address : string;
  d_port : json;
  d_public_key : json;
  d_last_seen : Z;
  d_uptime_seconds : Z
}.

Inductive line : Type :=
  | CleanupRemoving (k : pykey).

(** The process state: the global dict [active_nodes] (here
    [registry]), the clock behind [datetime.now()] and what was
    printed. *)
Record server : Type := mkServer {
  registry : Py.dict Node;
  clock : nat → Z;
  ticks : nat;
  console : list line
}.

(** The records of [active_nodes] by key. *)
Definition active_nodes (w : server) : gmap pykey Node :=
  Py.mapping (registry w).

Definition set_active_nodes (f : Py.dict Node → Py.dict Node)
    (w : server) : server :=
  mkServer (f (registry w)) (clock w) (ticks w) (console w).

Definition HEARTBEAT_TIMEOUT : Z := 30.
Definition CLEANUP_INTERVAL : Z := 10.

(** [timedelta(seconds=s)] *)
Definition timedelta (s : Z) : Z := s * 1000000.

(** [datetime.now()] *)
Definition datetime_now : M server Z :=
  λ w, (Ret (clock w (ticks w)),
        mkServer (registry w) (clock w) (S (ticks w)) (console w)).

Definition print (l : line) : M server unit :=
  λ w, (Ret tt,
        mkServer (registry w) (clock w) (ticks w) (console w ++ [l])).

(** [Node.__init__]: two clock readings, [last_heartbeat] first. *)
Definition Node_init (id : json) (ip : string) (p : json) (pk : json)
    : M server Node :=
  hb <- datetime_now ;;
  reg <- datetime_now ;;
  ret (mkNode id ip p pk hb reg).

Definition to_dict_at (n : Node) (now : Z) : NodeDict :=
  mkNodeDict (node_id n) (ip_address n) (port n) (public_key n)
             (last_heartbeat n) (now - registered_at n).

(** [Node.to_dict] *)
Definition to_dict (n : Node) : M server NodeDict :=
  now <- datetime_now ;;
  ret (to_dict_at n now).

(** [active_nodes[id] = n] *)
Definition setitem (id : json) (n : Node) : M server unit :=
  k <- lift (Py.hash id) ;;
  modify (set_active_nodes (Py.setitem k n)).

(** The incoming request: the parsed JSON body and the client address. *)
Record request : Type := mkRequest {
  get_json : json;
  remote_addr : string
}.

(** The argument of [jsonify]. *)
Inductive body : Type :=
  | Failure (error : string)
  | FailureExn (e : exn)
  | Registered (id : json) (node_info : NodeDict)
  | HeartbeatReceived
  | Peers (peer_count : nat) (peers : list NodeDict)
  | Unregistered (id : json)
  | Nodes (total_nodes : nat) (nodes : list NodeDict)
  | Health (timestamp : Z) (count : nat).

Record response : Type := mkResponse {
  status : Z;
  payload : body
}.

Definition required_fields : list string := ["node_id"; "port"].

(** [GET /health] *)
Definition health_check : M server response :=
  now <- datetime_now ;;
  nodes <- gets active_nodes ;;
  ret (mkResponse 200 (Health now (size nodes))).

(** [POST /register] *)
Definition register_node (req : request) : M server response :=
  try_except
    (let data := get_json req in
     present <- lift (Py.all_in required_fields data) ;;
     if negb present then
       ret (mkResponse 400 (Failure "Missing required fields: node_id, port"))
     else
       id <- lift (Py.getitem data "node_id") ;;
       p <- lift (Py.getitem data "port") ;;
       pk <- lift (Py.get data "public_key" JNull) ;;
       let ip := remote_addr req in
       node <- Node_init id ip p pk ;;
       setitem id node ;;
       info <- to_dict node ;;
       ret (mkResponse 201 (Registered id info)))
    (λ e, ret (mkResponse 500 (FailureExn e))).

(** [POST /heartbeat]; the assignment to [last_heartbeat] changes the
    record where it lies, so its key keeps its place. *)
Definition heartbeat (req : request) : M server response :=
  try_except
    (let data := get_json req in
     id <- lift (Py.get data "node_id" JNull) ;;
     if negb (Py.truthy id) then
       ret (mkResponse 400 (Failure "node_id required"))
     else
       k <- lift (Py.hash id) ;;
       nodes <- gets active_nodes ;;
       match nodes !! k with
       | Some n =>
           now <- datetime_now ;;
           modify (set_active_nodes
                     (Py.setitem k (set_last_heartbeat now n))) ;;
           ret (mkResponse 200 HeartbeatReceived)
       | None =>
           ret (mkResponse 404 (Failure "Node not registered"))
       end)
    (λ e, ret (mkResponse 500 (FailureExn e))).

(** The entries the comprehension of [discover_peers] keeps: those of
    [active_nodes.items()] with [node_id != requesting_node]. *)
Definition others (requesting_node : json) (nodes : Py.dict Node)
    : list (pykey * Node) :=
  filter (λ e, Py.key_eqb e.1 requesting_node = false) (Py.items nodes).

(** [POST /discover] *)
Definition discover_peers (req : request) : M server response :=
  try_except
    (let data := get_json req in
     requesting_node <- lift (Py.get data "node_id" JNull) ;;
     if negb (Py.truthy requesting_node) then
       ret (mkResponse 400 (Failure "node_id required"))
     else
       nodes <- gets registry ;;
       peers <- map_m (λ e, to_dict e.2) (others requesting_node nodes) ;;
       ret (mkResponse 200 (Peers (length peers) peers)))
    (λ e, ret (mkResponse 500 (FailureExn e))).

(** [POST /unregister] *)
Definition unregister_node (req : request) : M server response :=
  try_except
    (let data := get_json req in
     id <- lift (Py.get data "node_id" JNull) ;;
     if negb (Py.truthy id) then
       ret (mkResponse 400 (Failure "node_id required"))
     else
       k <- lift (Py.hash id) ;;
       nodes <- gets active_nodes ;;
       match nodes !! k with
       | Some _ =>
           modify (set_active_nodes (Py.delitem k)) ;;
           ret (mkResponse 200 (Unregistered id))
       | None =>
           ret (mkResponse 404 (Failure "Node not found"))
       end)
    (λ e, ret (mkResponse 500 (FailureExn e))).

(** [GET /nodes] *)
Definition list_nodes : M server response :=
  all <- gets registry ;;
  nodes <- map_m (λ e, to_dict e.2) (Py.items all) ;;
  ret (mkResponse 200 (Nodes (length nodes) nodes)).

(** The ids the comprehension of [cleanup_stale_nodes] collects. *)
Definition stale_nodes (timeout_threshold : Z) (nodes : Py.dict Node)
    : list pykey :=
  (filter (λ e, last_heartbeat e.2 < timeout_threshold)
          (Py.items nodes)).*1.

(** One turn of the [while True] loop of [cleanup_stale_nodes], after
    its [time.sleep]. *)
Definition cleanup_pass : M server unit :=
  current_time <- datetime_now ;;
  let timeout_threshold := current_time - timedelta HEARTBEAT_TIMEOUT in
  nodes <- gets registry ;;
  for_each (stale_nodes timeout_threshold nodes)
    (λ k, print (CleanupRemoving k) ;;
          modify (set_active_nodes (Py.delitem k))).


(** *** Runs of the server

    The lock serialises the handlers and the reaper, so an execution of
    the server is a sequence of them. *)

Inductive op : Type :=
  | Register (req : request)
  | Heartbeat (req : request)
  | Discover (req : request)
  | Unregister (req : request)
  | ListNodes
  | HealthCheck
  | Reap.

Definition exec (o : op) : M server unit :=
  match o with
  | Register req => register_node req ;; ret tt
  | Heartbeat req => heartbeat req ;; ret tt
  | Discover req => discover_peers req ;; ret tt
  | Unregister req => unregister_node req ;; ret tt
  | ListNodes => list_nodes ;; ret tt
  | HealthCheck => health_check ;; ret tt
  | Reap => cleanup_pass
  end.

Fixpoint run (ops : list op) : M server unit :=
  match ops with
  | [] => ret tt
  | o :: r => exec o ;; run r
  end.

(** The state a run ends in. *)
Definition after (ops : list op) (w : server) : server := (run ops w).2.

(** The dictionary key a request names in its [node_id] field, if any. *)
Definition req_key (req : request) : option pykey :=
  match get_json req with
  | JObj m => m !! "node_id" ≫= Py.key_of
  | _ => None
  end.








Definition monotone (clk : nat → Z) : Prop :=
  ∀ i j : nat, (i ≤ j)%nat → clk i ≤ clk j.

(** Every record is filed under the key of its own [node_id]. *)
Definition well_keyed (nodes : gmap pykey Node) : Prop :=
  ∀ k n, nodes !! k = Some n → Py.key_of (node_id n) = Some k.

(** The dictionaries [to_dict] yields for the entries of [l] when the
    first of them reads the clock at tick [i]. *)
Fixpoint snapshots (clk : nat → Z) (i : nat) (l : list (pykey * Node))
    : list NodeDict :=
  match l with
  | [] => []
  | e :: r => to_dict_at e.2 (clk i) :: snapshots clk (S i) r
  end.

Definition advance (n : nat) (w : server) : server :=
  mkServer (registry w) (clock w) (n + ticks w) (console w).

(** *** The service descriptor *)

(** The argument of [jsonify] in [index]. *)
Record service_info : Type := mkServiceInfo {
  service : string;
  service_status : string;
  version : string;
  endpoints : list (string * string);
  service_active_nodes : nat;
  service_timestamp : Z
}.

(** [GET /]; the dict literal reads [len(active_nodes)] before the
    clock. *)
Definition index : M server service_info :=
  nodes <- gets active_nodes ;;
  now <- datetime_now ;;
  ret (mkServiceInfo "Mobile Mesh Sentinel 2.0 - Signaling Server" "online"
         "2.0"
         [("health", "/health"); ("register", "/register (POST)");
          ("heartbeat", "/heartbeat (POST)");
          ("discover", "/discover (POST)");
          ("unregister", "/unregister (POST)"); ("nodes", "/nodes (GET)")]
         (size nodes) now).

(** Both timestamps of every record are readings the clock has already
    given. *)
Definition stamped (w : server) : Prop :=
  ∀ k n, active_nodes w !! k = Some n →
    ∃ i j, (i < ticks w)%nat ∧ (j < ticks w)%nat
           ∧ last_heartbeat n = clock w i ∧ registered_at n = clock w j.

(** The records of [w'] carry the heartbeat stamp they had in [w] or one
    read since. *)
Definition refreshed (w w' : server) : Prop :=
  ∀ k n', active_nodes w' !! k = Some n' →
    (∃ n, active_nodes w !! k = Some n
          ∧ last_heartbeat n' = last_heartbeat n)
    ∨ (∃ i, (ticks w ≤ i < ticks w')%nat ∧ last_heartbeat n' = clock w i).

(** The status codes an endpoint can answer with. *)
Definition answers (codes : list Z) (out : outcome response * server)
    : Prop :=
  ∃ r, out.1 = Ret r ∧ status r ∈ codes.

End Server.

(** ** The mesh node *)

Module MeshNode.

(** The library calls between Python values and what travels on a
    socket: [json.dumps(v).encode('utf-8')], [json.loads] of the decoded
    text, the truth value of a received text, the number of bytes of a
    frame, the buffer bound of [recv(n)], and [datetime.isoformat()].  A
    read of at most [n] bytes yields the whole frame exactly when the
    frame has no more than [n] bytes. *)
Class Wire : Type := mkWire {
  bytes : Type;
  nothing : bytes;
  nonempty : bytes → bool;
  size_of : bytes → Z;
  take : Z → bytes → bytes;
  dumps : json → bytes;
  loads : bytes → outcome json;
  isoformat : Z → string;
  nonempty_nothing : nonempty nothing = false;
  nonempty_dumps : ∀ v, nonempty (dumps v) = true;
  loads_dumps : ∀ v, loads (dumps v) = Ret v;
  take_all : ∀ n b, 0 ≤ n → take n b = b ↔ size_of b ≤ n
}.

Section Agent.
Context {W : Wire}.

Inductive line : Type :=
  | Discovered (count : nat)
  | PeerAdded (peer_id ip port : json)
  | NoPeers
  | DiscoveryError (e : exn)
  | MessageFrom (source : json)
  | MessageType (type : json)
  | MessageContent (content : json)
  | HandlerError (e : exn)
  | PeerNotFound (peer_id : string)
  | MessageSent (peer_id : string)
  | Response (response : bytes)
  | SendError (e : exn).

(** What the process does that the outside can see. *)
Inductive event : Type :=
  | Print (l : line)
  | SocketCreate
  | SocketSetTimeout (seconds : Z)
  | SocketConnect (host port : json)
  | SocketSend (data : bytes)
  | SocketRecv (bufsize : Z)
  | SocketClose.

(** [class MeshNode]; [cache] is the dict [self.peers], which maps a
    peer id to the record the registry returned for it. *)
Record mesh_node : Type := mkMeshNode {
  node_id : string;
  server_url : string;
  listen_port : Z;
  cache : Py.dict json;
  running : bool;
  clock : nat → Z;
  ticks : nat;
  trace : list event
}.

(** The records of [self.peers] by key. *)
Definition peers (a : mesh_node) : gmap pykey json := Py.mapping (cache a).

Definition set_peers (f : Py.dict json → Py.dict json)
    (a : mesh_node) : mesh_node :=
  mkMeshNode (node_id a) (server_url a) (listen_port a) (f (cache a))
             (running a) (clock a) (ticks a) (trace a).

Definition emit (e : event) : M mesh_node unit :=
  λ a, (Ret tt,
        mkMeshNode (node_id a) (server_url a) (listen_port a) (cache a)
                   (running a) (clock a) (ticks a) (trace a ++ [e])).

Definition print (l : line) : M mesh_node unit := emit (Print l).

(** [datetime.now()] *)
Definition datetime_now : M mesh_node Z :=
  λ a, (Ret (clock a (ticks a)),
        mkMeshNode (node_id a) (server_url a) (listen_port a) (cache a)
                   (running a) (clock a) (S (ticks a)) (trace a)).

(** What [requests.post] hands back: the status and what
    [response.json()] yields. *)
Record http_response : Type := mkHttpResponse {
  status_code : Z;
  resp_json : outcome json
}.

(** The key under which the loop files a record: [peer['node_id']],
    hashed. *)
Definition peer_key (peer : json) : outcome pykey :=
  match Py.getitem peer "node_id" with
  | Ret peer_id => Py.hash peer_id
  | Raise e => Raise e
  end.

(** The records an answer of the registry offers to the merge: the items
    of a truthy [response.json()['peers']] of a 200 answer, none
    otherwise. *)
Definition offered (post : outcome http_response) : list json :=
  match post with
  | Ret response =>
      if status_code response =? 200 then
        match resp_json response with
        | Ret data =>
            match Py.getitem data "peers" with
            | Ret new_peers =>
                if Py.truthy new_peers then
                  match Py.iter new_peers with
                  | Ret items => items
                  | Raise _ => []
                  end
                else []
            | Raise _ => []
            end
        | Raise _ => []
        end
      else []
  | Raise _ => []
  end.

(** The body of the [for peer in new_peers] loop. *)
Definition merge_peer (peer : json) : M mesh_node unit :=
  peer_id <- lift (Py.getitem peer "node_id") ;;
  k <- lift (Py.hash peer_id) ;;
  known <- gets peers ;;
  match known !! k with
  | Some _ => ret tt
  | None =>
      modify (set_peers (Py.setitem k peer)) ;;
      ip <- lift (Py.getitem peer "ip_address") ;;
      p <- lift (Py.getitem peer "port") ;;
      print (PeerAdded peer_id ip p)
  end.

(** One turn of the [while self.running] loop of [discover_peers], given
    the outcome of its [requests.post]. *)
Definition discover_round (post : outcome http_response)
    : M mesh_node unit :=
  try_except
    (response <- lift post ;;
     if status_code response =? 200 then
       data <- lift (resp_json response) ;;
       new_peers <- lift (Py.getitem data "peers") ;;
       if Py.truthy new_peers then
         count <- lift (Py.len new_peers) ;;
         print (Discovered count) ;;
         items <- lift (Py.iter new_peers) ;;
         for_each items merge_peer
       else
         print NoPeers
     else
       ret tt)
    (λ e, print (DiscoveryError e)).

(** [discover_peers]: one turn per answer of the server, for as long as
    [self.running] holds. *)
Fixpoint discover_peers (posts : list (outcome http_response))
    : M mesh_node unit :=
  match posts with
  | [] => ret tt
  | post :: r =>
      go <- gets running ;;
      if go then discover_round post ;; discover_peers r else ret tt
  end.

(** The socket [accept] returned, seen from the handler: what its
    [recv] yields and whether a [send] goes through. *)
Record client_socket : Type := mkClientSocket {
  cs_recv : Z → outcome bytes;
  cs_send : bytes → outcome unit
}.

(** The acknowledgment of [handle_peer_connection]. *)
Definition ack (now : Z) : json :=
  JObj (<["status" := JStr "received"]>
        (<["timestamp" := JStr (isoformat now)]> ∅)).

(** [handle_peer_connection] *)
Definition handle_peer_connection (sock : client_socket)
    : M mesh_node unit :=
  try_except
    (emit (SocketRecv 4096) ;;
     data <- lift (cs_recv sock 4096) ;;
     if nonempty data then
       message <- lift (loads data) ;;
       source <- lift (Py.get message "source" (JStr "Unknown")) ;;
       print (MessageFrom source) ;;
       type <- lift (Py.get message "type" (JStr "unknown")) ;;
       print (MessageType type) ;;
       content <- lift (Py.get message "payload" (JStr "N/A")) ;;
       print (MessageContent content) ;;
       now <- datetime_now ;;
       let response := ack now in
       emit (SocketSend (dumps response)) ;;
       lift (cs_send sock (dumps response))
     else
       ret tt)
    (λ e, print (HandlerError e)) ;;
  emit SocketClose.

(** The far end of an outbound connection: whether a [send] goes
    through, and what [recv(n)] yields after [sent] was written. *)
Record connection : Type := mkConnection {
  on_send : bytes → outcome unit;
  on_recv : bytes → Z → outcome bytes
}.

(** The network as the sender meets it: whether a socket can be made and
    where a [connect] leads. *)
Record network : Type := mkNetwork {
  new_socket : outcome unit;
  dial : json → json → outcome connection
}.

(** The envelope [send_message_to_peer] writes. *)
Definition envelope (source destination type payload : string) (now : Z)
    : json :=
  JObj (<["source" := JStr source]>
        (<["destination" := JStr destination]>
         (<["type" := JStr type]>
          (<["payload" := JStr payload]>
           (<["timestamp" := JStr (isoformat now)]> ∅))))).

(** [send_message_to_peer]; the value returned is the Python value the
    caller gets. *)
Definition send_message_to_peer (net : network) (peer_id : string)
    (message_type payload : string) : M mesh_node json :=
  known <- gets peers ;;
  match known !! KStr peer_id with
  | None =>
      print (PeerNotFound peer_id) ;;
      ret (JBool false)
  | Some peer =>
      try_except
        (emit SocketCreate ;;
         lift (new_socket net) ;;
         emit (SocketSetTimeout 10) ;;
         host <- lift (Py.getitem peer "ip_address") ;;
         p <- lift (Py.getitem peer "port") ;;
         emit (SocketConnect host p) ;;
         sock <- lift (dial net host p) ;;
         me <- gets node_id ;;
         now <- datetime_now ;;
         let message := envelope me peer_id message_type payload now in
         emit (SocketSend (dumps message)) ;;
         lift (on_send sock (dumps message)) ;;
         emit (SocketRecv 4096) ;;
         response <- lift (on_recv sock (dumps message) 4096) ;;
         print (MessageSent peer_id) ;;
         print (Response response) ;;
         emit SocketClose ;;
         ret (JBool true))
        (λ e, print (SendError e) ;; ret (JBool false))
  end.

(** The frame a handler wrote to its socket (it writes at most one);
    [nothing] if it closed without writing. *)
Fixpoint written (evs : list event) : bytes :=
  match evs with
  | [] => nothing
  | SocketSend d :: _ => d
  | _ :: r => written r
  end.

(** The connection a sender gets to the node [b] when [b] is
    listening: the handler of [b] reads from what was sent, and whatever
    it writes back is what the sender's [recv] yields.  The handler reads
    once, 4096 bytes at most; if it closes the socket with a rest of the
    frame unread the connection is reset, and the sender's [recv]
    raises. *)
Definition listening (b : mesh_node) : connection :=
  mkConnection
    (λ _, Ret tt)
    (λ sent n,
       let sock := mkClientSocket (λ m, Ret (take m sent)) (λ _, Ret tt) in
       let b' := (handle_peer_connection sock b).2 in
       if size_of sent <=? 4096 then
         Ret (take n (written (drop (length (trace b)) (trace b'))))
       else Raise OSError).

(** The node [a] after it has taken [n] clock readings and added [evs]
    to its trace. *)
Definition moved (a : mesh_node) (n : nat) (evs : list event) : mesh_node :=
  mkMeshNode (node_id a) (server_url a) (listen_port a) (cache a)
             (running a) (clock a) (n + ticks a) (trace a ++ evs).


(** *** [list_peers] *)

(** The lines [list_peers] prints. *)
Inductive report : Type :=
  | NoPeersYet
  | PeersHeader (count : nat)
  | Rule
  | PeerName (peer_id : pykey)
  | PeerAddress (ip port : json)
  | PeerLastSeen (seen : json)
  | BlankLine.

(** The loop of [list_peers] over the items of [self.peers]: the lines
    printed, and whether the loop came to its end. *)
Fixpoint list_entries (items : list (pykey * json))
    : list report * outcome unit :=
  match items with
  | [] => ([], Ret tt)
  | (peer_id, peer) :: r =>
      match Py.getitem peer "ip_address" with
      | Raise e => ([PeerName peer_id], Raise e)
      | Ret ip =>
          match Py.getitem peer "port" with
          | Raise e => ([PeerName peer_id], Raise e)
          | Ret p =>
              match Py.get peer "last_seen" (JStr "N/A") with
              | Raise e => ([PeerName peer_id; PeerAddress ip p], Raise e)
              | Ret seen =>
                  let rest := list_entries r in
                  (PeerName peer_id :: PeerAddress ip p :: PeerLastSeen seen
                     :: BlankLine :: rest.1,
                   rest.2)
              end
          end
      end
  end.

(** [list_peers]: it changes nothing, so it is a function of the node;
    it has no [try], so an exception goes to the caller. *)
Definition list_peers (a : mesh_node) : list report * outcome unit :=
  if Nat.eqb (size (peers a)) 0 then ([NoPeersYet], Ret tt)
  else
    let body := list_entries (Py.items (cache a)) in
    (PeersHeader (size (peers a)) :: Rule :: body.1, body.2).

(** *** The life cycle of the process *)

(** The threads [start] launches. *)
Inductive thread : Type :=
  | Listener
  | Heartbeats
  | Discovery.

(** The lines of [start], [register], [send_heartbeat] and [stop]. *)
Inductive notice : Type :=
  | Banner (id url : string) (port : Z)
  | FailedToRegister
  | RegisteredSuccessfully
  | RegisteredIp (ip : json)
  | RegisteredPort (p : json)
  | RegistrationFailed (answer : json)
  | RegistrationError (e : exn)
  | HeartbeatSent (now : Z)
  | HeartbeatFailed (answer : json)
  | HeartbeatError (e : exn)
  | ShuttingDown
  | UnregisteredFromServer
  | Goodbye.

(** The process around the node object: what [requests.post] yields for
    a URL and a body, the requests made, the lines printed, the threads
    started, and [self.server_socket] ([None], or a socket that is open
    or closed). *)
Record process : Type := mkProcess {
  self : mesh_node;
  http : string → json → outcome http_response;
  posted : list (string * json);
  printed : list notice;
  started : list thread;
  server_socket : option bool
}.

Definition say (n : notice) : M process unit :=
  λ s, (Ret tt,
        mkProcess (self s) (http s) (posted s) (printed s ++ [n])
                  (started s) (server_socket s)).

(** [requests.post(f"{self.server_url}{path}", json=body, timeout=5)] *)
Definition requests_post (path : string) (body : json)
    : M process http_response :=
  λ s, let url := (server_url (self s) ++ path)%string in
       (http s url body,
        mkProcess (self s) (http s) (posted s ++ [(url, body)]) (printed s)
                  (started s) (server_socket s)).

(** Run a method of the node object inside the process. *)
Definition with_self {A} (c : M mesh_node A) : M process A :=
  λ s, let out := c (self s) in
       (out.1,
        mkProcess out.2 (http s) (posted s) (printed s) (started s)
                  (server_socket s)).

Definition set_running (b : bool) : M process unit :=
  with_self (modify (λ a,
    mkMeshNode (node_id a) (server_url a) (listen_port a) (cache a) b
               (clock a) (ticks a) (trace a))).


(** [{'node_id': self.node_id, 'port': self.listen_port}] *)
Definition register_body (a : mesh_node) : json :=
  JObj (<["node_id" := JStr (node_id a)]>
        (<["port" := JNum (listen_port a)]> ∅)).

(** [{'node_id': self.node_id}] *)
Definition id_body (a : mesh_node) : json :=
  JObj (<["node_id" := JStr (node_id a)]> ∅).



(** One turn of the [while self.running] loop of [send_heartbeat],
    before its [time.sleep]. *)
Definition heartbeat_turn : M process unit :=
  try_except
    (a <- gets self ;;
     response <- requests_post "/heartbeat" (id_body a) ;;
     if status_code response =? 200 then
       now <- with_self datetime_now ;;
       say (HeartbeatSent now)
     else
       answer <- lift (resp_json response) ;;
       say (HeartbeatFailed answer))
    (λ e, say (HeartbeatError e)).

(** One turn of the loop of [discover_peers] with its request: the
    answer of [requests.post], or its exception, goes to
    [discover_round]. *)
Definition discovery_turn : M process unit :=
  λ s, let url := (server_url (self s) ++ "/discover")%string in
       let body := id_body (self s) in
       with_self (discover_round (http s url body))
         (mkProcess (self s) (http s) (posted s ++ [(url, body)])
                    (printed s) (started s) (server_socket s)).

(** [stop]; its bare [except] swallows whatever the request raises. *)
Definition stop : M process unit :=
  say ShuttingDown ;;
  set_running false ;;
  try_except
    (a <- gets self ;;
     requests_post "/unregister" (id_body a) ;;
     say UnregisteredFromServer)
    (λ _, ret tt) ;;
  λ s, (Ret tt,
        mkProcess (self s) (http s) (posted s) (printed s ++ [Goodbye])
                  (started s)
                  (match server_socket s with
                   | Some _ => Some false
                   | None => None
                   end)).

(** The process [s] after it has made the requests [reqs] and printed
    the lines [ns]. *)
Definition noted (s : process) (reqs : list (string * json))
    (ns : list notice) : process :=
  mkProcess (self s) (http s) (posted s ++ reqs) (printed s ++ ns)
            (started s) (server_socket s).


End Agent.

End MeshNode.

(** ** Concrete states and requests *)

Module Examples.
Import Server.

(** A dict literal. *)
Definition obj (l : list (string * json)) : json := JObj (list_to_map l).

(** A clock that advances one second per reading. *)
Definition seconds : nat → Z := λ i, Z.of_nat i * 1000000.

Definition empty_server : server := mkServer ∅ seconds 0 [].

Definition register_A : request :=
  mkRequest (obj [("node_id", JStr "A"); ("port", JNum 9001)]) "10.0.0.1".
Definition register_B : request :=
  mkRequest (obj [("node_id", JStr "B"); ("port", JNum 9002)]) "10.0.0.2".
Definition as_A : request := mkRequest (obj [("node_id", JStr "A")]) "10.0.0.1".
Definition as_B : request := mkRequest (obj [("node_id", JStr "B")]) "10.0.0.2".

(** The registry after [A] and [B] have registered. *)
Definition server_AB : server :=
  after [Register register_A; Register register_B] empty_server.

Definition node_A : Node :=
  mkNode (JStr "A") "10.0.0.1" (JNum 9001) JNull 0 1000000.

(** Requests that carry a falsy or an unhashable [node_id]. *)
Definition register_empty : request :=
  mkRequest (obj [("node_id", JStr ""); ("port", JNum 9003)]) "10.0.0.3".
Definition as_empty : request := mkRequest (obj [("node_id", JStr "")]) "10.0.0.3".
Definition register_no_port : request :=
  mkRequest (obj [("node_id", JStr "C")]) "10.0.0.5".

(** The registry after a node has registered under the empty string. *)
Definition server_empty_id : server :=
  after [Register register_empty] empty_server.

Definition node_empty : Node :=
  mkNode (JStr "") "10.0.0.3" (JNum 9003) JNull 0 1000000.

(** Requests whose body is not a dict, and one naming a node that never
    registered. *)
Definition null_body : request := mkRequest JNull "10.0.0.6".
Definition as_C : request := mkRequest (obj [("node_id", JStr "C")]) "10.0.0.5".
Definition register_C : request :=
  mkRequest (obj [("node_id", JStr "C"); ("port", JNum 9005)]) "10.0.0.5".
Definition as_list : request :=
  mkRequest (obj [("node_id", JArr [JNum 1]); ("port", JNum 9004)]) "10.0.0.4".

(** A node that registers under the float [NaN], next to [A]. *)
Definition register_nan : request :=
  mkRequest (obj [("node_id", JFloat S754_nan); ("port", JNum 9006)])
            "10.0.0.6".
Definition as_nan : request :=
  mkRequest (obj [("node_id", JFloat S754_nan)]) "10.0.0.6".
Definition server_nan : server :=
  after [Register register_nan; Register register_A] empty_server.
Definition node_nan : Node :=
  mkNode (JFloat S754_nan) "10.0.0.6" (JNum 9006) JNull 0 1000000.







(** A wire on which a frame is the value it carries together with the
    number of its bytes: [dumps] and [loads] are inverse by
    construction, and a frame cut by a short read no longer parses. *)
Record frame : Type := mkFrame {
  content : option json;
  width : Z
}.

(** The bytes of a string literal, quotes included (no escapes are
    counted). *)
Definition text_width (s : string) : Z := 2 + Z.of_nat (String.length s).

(** The bytes [json.dumps] writes for a value, give or take what lies
    below the first level of a dict: brackets, and for each member its
    key, [": "], the value if it is a string, and [", "]. *)
Definition json_width (v : json) : Z :=
  match v with
  | JStr s => text_width s
  | JArr l => 2 + 2 * Z.of_nat (length l)
  | JObj m =>
      2 + map_fold (λ k x acc,
                      acc + text_width k + 4
                      + match x with JStr s => text_width s | _ => 4 end)
                   0 m
  | _ => 4
  end.

Definition cut (n : Z) (b : frame) : frame :=
  if width b <=? n then b else mkFrame None n.

Definition cut_all (n : Z) (b : frame) : 0 ≤ n → cut n b = b ↔ width b ≤ n.
Proof.
  intros _. unfold cut. destruct (Z.leb_spec (width b) n) as [Hle|Hgt].
  - split; [done|done].
  - split; [|lia]. intros Heq. apply (f_equal width) in Heq. simpl in Heq. lia.
Qed.

Definition loopback : MeshNode.Wire :=
  MeshNode.mkWire frame (mkFrame None 0)
    (λ b, 0 <? width b)
    width
    cut
    (λ v, mkFrame (Some v) (Z.max 1 (json_width v)))
    (λ b, match content b with Some v => Ret v | None => Raise ValueError end)
    (λ t, pretty t)
    eq_refl (λ v, proj2 (Z.ltb_lt 0 _) (Z.lt_le_trans 0 1 _ eq_refl (Z.le_max_l 1 _)))
    (λ _, eq_refl) cut_all.

(** [Node_Beta] knows [Node_Alpha], which listens on port 8001. *)
Definition alpha_record : json :=
  obj [("node_id", JStr "Node_Alpha"); ("ip_address", JStr "127.0.0.1");
       ("port", JNum 8001); ("public_key", JNull)].

Definition node_beta : MeshNode.mesh_node (W := loopback) :=
  MeshNode.mkMeshNode "Node_Beta" "http://127.0.0.1:5000" 8002
    (Py.setitem (KStr "Node_Alpha") alpha_record ∅) true seconds 0 [].

Definition node_alpha : MeshNode.mesh_node (W := loopback) :=
  MeshNode.mkMeshNode "Node_Alpha" "http://127.0.0.1:5000" 8001
    ∅ true seconds 0 [].

Definition local_network : MeshNode.network (W := loopback) :=
  MeshNode.mkNetwork (Ret tt)
    (λ host p,
       match host, p with
       | JStr "127.0.0.1", JNum 8001 => Ret (MeshNode.listening node_alpha)
       | _, _ => Raise OSError
       end).

(** An answer of the registry that moves [Node_Alpha] to another address
    and adds [Node_Gamma]. *)
Definition alpha_moved : json :=
  obj [("node_id", JStr "Node_Alpha"); ("ip_address", JStr "10.0.0.9");
       ("port", JNum 8009); ("public_key", JNull)].
Definition gamma_record : json :=
  obj [("node_id", JStr "Node_Gamma"); ("ip_address", JStr "10.0.0.7");
       ("port", JNum 8003); ("public_key", JNull)].
Definition discover_answer : outcome MeshNode.http_response :=
  Ret (MeshNode.mkHttpResponse 200
         (Ret (obj [("success", JBool true); ("peer_count", JNum 2);
                    ("peers", JArr [alpha_moved; gamma_record])]))).

(** An answer whose first record has an id and a port but no address. *)
Definition delta_record : json :=
  obj [("node_id", JStr "Node_Delta"); ("port", JNum 8004)].
Definition broken_answer : MeshNode.http_response :=
  MeshNode.mkHttpResponse 200
    (Ret (obj [("success", JBool true); ("peer_count", JNum 2);
               ("peers", JArr [delta_record; gamma_record])])).

(** A registry that answers every registration with 201 and the node's
    address, every heartbeat with 404, and drops every other request. *)
Definition registry_stub : string → json → outcome MeshNode.http_response :=
  λ url _,
    if String.eqb url "http://127.0.0.1:5000/register" then
      Ret (MeshNode.mkHttpResponse 201
             (Ret (obj [("success", JBool true);
                        ("node_info",
                         obj [("node_id", JStr "Node_Beta");
                              ("ip_address", JStr "127.0.0.1");
                              ("port", JNum 8002)])])))
    else if String.eqb url "http://127.0.0.1:5000/heartbeat" then
      Ret (MeshNode.mkHttpResponse 404
             (Ret (obj [("success", JBool false);
                        ("error", JStr "Node not registered")])))
    else Raise OSError.

Definition beta_process : MeshNode.process (W := loopback) :=
  MeshNode.mkProcess node_beta registry_stub [] [] [] None.

End Examples.

(** ** Facts about the Python operations *)

Module PyFacts.
Import Py.


Lemma hash_unhashable v : key_of v = None → hash v = Raise TypeError.
Proof. unfold hash. by intros ->. Qed.

(** [k == v] holds of equal keys other than [NaN]. *)
Lemma key_eqb_true k v :
  key_eqb k v = true ↔ key_of v = Some k ∧ k ≠ KNaN.
Proof.
  unfold key_eqb.
  rewrite andb_true_iff, negb_true_iff, bool_decide_eq_true,
    bool_decide_eq_false. done.
Qed.

(** [k != v] holds of different keys, and of [NaN] against itself. *)
Lemma key_eqb_false k v :
  key_eqb k v = false ↔ key_of v ≠ Some k ∨ k = KNaN.
Proof.
  unfold key_eqb.
  rewrite andb_false_iff, negb_false_iff, bool_decide_eq_false,
    bool_decide_eq_true. done.
Qed.


Lemma falsy_key_of v k :
  truthy v = false → key_of v = Some k → falsy_key k.
Proof.
  unfold falsy_key. destruct v as [|b|z|f|s| |]; simpl; intros Hf Hk;
    inversion Hk; subst; auto.
  - right; left. apply negb_false_iff, Z.eqb_eq in Hf. by subst.
  - destruct f; try discriminate. right; left. done.
  - right; right. apply negb_false_iff, String.eqb_eq in Hf. by subst.
Qed.


Lemma all_in_required m :
  all_in ["node_id"; "port"] (JObj m)
  = Ret (bool_decide (is_Some (m !! "node_id"))
         && bool_decide (is_Some (m !! "port"))).
Proof.
  simpl. destruct (bool_decide (is_Some (m !! "node_id"))); [|done].
  by destruct (bool_decide (is_Some (m !! "port"))).
Qed.

End PyFacts.

(** ** Facts about dictionaries *)

Module DictFacts.
Import Py.

Section dict.
Context {V : Type}.
Implicit Types (d : dict V) (k : pykey) (v : V).

(** Whatever the pair, its keys come once each, and they are the keys of
    the mapping. *)
Lemma keys_listed d :
  NoDup (keys d) ∧ ∀ k, k ∈ keys d ↔ is_Some (mapping d !! k).
Proof.
  unfold keys. case_bool_decide as Hl.
  - destruct Hl as [Hnd Hdom]. split; [done|]. intros k.
    by rewrite <- elem_of_dom, <- Hdom, elem_of_list_to_set.
  - split; [apply NoDup_fst_map_to_list|]. intros k.
    rewrite list_elem_of_fmap. split.
    + intros [[k' v] [-> Hin]]. apply elem_of_map_to_list in Hin.
      by exists v.
    + intros [v Hv]. exists (k, v). split; [done|].
      by apply elem_of_map_to_list.
Qed.

Lemma NoDup_keys d : NoDup (keys d).
Proof. apply keys_listed. Qed.

Lemma elem_of_keys d k : k ∈ keys d ↔ is_Some (mapping d !! k).
Proof. apply keys_listed. Qed.

Lemma keys_mkDict (m : gmap pykey V) (l : list pykey) :
  NoDup l → (∀ k, k ∈ l ↔ is_Some (m !! k)) → keys (mkDict m l) = l.
Proof.
  intros Hnd Hin. unfold keys. rewrite bool_decide_eq_true_2; [done|].
  split; [done|]. simpl. apply set_eq. intros k.
  by rewrite elem_of_list_to_set, elem_of_dom.
Qed.

Lemma keys_empty : keys (∅ : dict V) = [].
Proof.
  apply (keys_mkDict ∅ []); [constructor|]. intros k.
  rewrite lookup_empty, elem_of_nil. split; [done|]. by intros [? ?].
Qed.

Lemma mapping_setitem k v d :
  mapping (setitem k v d) = <[k := v]> (mapping d).
Proof. reflexivity. Qed.

Lemma mapping_delitem k d : mapping (delitem k d) = delete k (mapping d).
Proof. reflexivity. Qed.

(** A new key goes to the end; a key that is there keeps its place. *)
Lemma keys_setitem k v d :
  keys (setitem k v d)
  = match mapping d !! k with
    | Some _ => keys d
    | None => keys d ++ [k]
    end.
Proof.
  unfold setitem. destruct (mapping d !! k) as [v0|] eqn:Hk.
  - apply keys_mkDict; [apply NoDup_keys|]. intros k'.
    rewrite elem_of_keys, lookup_insert_is_Some. split.
    + intros Hs. destruct (decide (k = k')) as [<-|]; [by left|by right].
    + intros [<-|[_ ?]]; [by exists v0|done].
  - apply keys_mkDict.
    + apply NoDup_app. split; [apply NoDup_keys|]. split.
      * intros k' Hin Hk'. apply list_elem_of_singleton in Hk' as ->.
        apply elem_of_keys in Hin as [? ?]. congruence.
      * apply NoDup_singleton.
    + intros k'. rewrite elem_of_app, elem_of_keys, list_elem_of_singleton,
        lookup_insert_is_Some. split.
      * intros [? | ->]; [|by left].
        destruct (decide (k = k')) as [<-|]; [by left|by right].
      * intros [<-|[_ ?]]; [by right|by left].
Qed.

Lemma keys_delitem k d : keys (delitem k d) = filter (λ k', k' ≠ k) (keys d).
Proof.
  unfold delitem. apply keys_mkDict; [apply NoDup_filter, NoDup_keys|].
  intros k'. rewrite list_elem_of_filter, elem_of_keys, lookup_delete_is_Some.
  split; intros [? ?]; split; done.
Qed.

Lemma omap_present (m : gmap pykey V) (l : list pykey) :
  (∀ k, k ∈ l → is_Some (m !! k)) →
  (omap (λ k, (k,.) <$> m !! k) l).*1 = l.
Proof.
  induction l as [|k l IH]; intros Hall; [done|]. simpl.
  destruct (Hall k) as [v Hv]; [by left|]. rewrite Hv. simpl.
  f_equal. apply IH. intros k' Hk'. apply Hall. by right.
Qed.

Lemma items_fst d : (items d).*1 = keys d.
Proof.
  unfold items. apply omap_present. intros k. by rewrite elem_of_keys.
Qed.

Lemma elem_of_items d k v : (k, v) ∈ items d ↔ mapping d !! k = Some v.
Proof.
  unfold items. rewrite list_elem_of_omap. split.
  - intros (k' & _ & Hk'). destruct (mapping d !! k') eqn:E; [|done].
    simpl in Hk'. by simplify_eq.
  - intros Hk. exists k. split; [apply elem_of_keys; by exists v|].
    by rewrite Hk.
Qed.

Lemma NoDup_items_fst d : NoDup (items d).*1.
Proof. rewrite items_fst. apply NoDup_keys. Qed.

Lemma NoDup_items d : NoDup (items d).
Proof. eapply NoDup_fmap_1, NoDup_items_fst. Qed.

(** The items are the entries of the mapping, in the order of the
    keys. *)
Lemma items_Permutation d : items d ≡ₚ map_to_list (mapping d).
Proof.
  apply NoDup_Permutation; [apply NoDup_items|apply NoDup_map_to_list|].
  intros [k v]. by rewrite elem_of_items, elem_of_map_to_list.
Qed.

Lemma length_items d : length (items d) = size (mapping d).
Proof. by rewrite items_Permutation, length_map_to_list. Qed.

Lemma items_empty : items (∅ : dict V) = [].
Proof. unfold items. by rewrite keys_empty. Qed.

Lemma omap_lookup_ext (m m' : gmap pykey V) (l : list pykey) :
  (∀ k, k ∈ l → m !! k = m' !! k) →
  omap (λ k, (k,.) <$> m !! k) l = omap (λ k, (k,.) <$> m' !! k) l.
Proof.
  induction l as [|k l IH]; intros Hall; [done|]. csimpl.
  rewrite (Hall k) by (by left). rewrite IH; [done|].
  intros k' Hk'. apply Hall. by right.
Qed.

Lemma items_setitem_new k v d :
  mapping d !! k = None → items (setitem k v d) = items d ++ [(k, v)].
Proof.
  intros Hk. unfold items. rewrite keys_setitem, Hk, omap_app.
  rewrite mapping_setitem. simpl. rewrite lookup_insert_eq. simpl. f_equal.
  apply omap_lookup_ext. intros k' Hin. apply lookup_insert_ne.
  intros ->. apply elem_of_keys in Hin as [? ?]. congruence.
Qed.

(** Assigning to a key that is there changes its value in place. *)
Lemma items_setitem_old k v d :
  is_Some (mapping d !! k) →
  items (setitem k v d)
  = (λ e, if decide (e.1 = k) then (k, v) else e) <$> items d.
Proof.
  intros [v0 Hk]. unfold items. rewrite keys_setitem, Hk, mapping_setitem.
  induction (keys d) as [|k' l IH]; [done|]. simpl.
  rewrite lookup_insert. case_decide as Hd.
  - subst k'. rewrite Hk. simpl. rewrite decide_True by done. by f_equal.
  - destruct (mapping d !! k') as [v'|]; simpl; [|done].
    rewrite decide_False by done. by f_equal.
Qed.

Lemma items_delitem k d :
  items (delitem k d) = filter (λ e, e.1 ≠ k) (items d).
Proof.
  unfold items. rewrite keys_delitem, mapping_delitem.
  induction (keys d) as [|k' l IH]; [done|].
  rewrite filter_cons. case_decide as Hd.
  - simpl. rewrite lookup_delete_ne by done.
    destruct (mapping d !! k') as [v'|]; simpl; [|done].
    rewrite filter_cons, decide_True by done. by f_equal.
  - subst k'. simpl.
    destruct (mapping d !! k) as [v'|]; simpl; [|done].
    by rewrite filter_cons, decide_False by (simpl; tauto).
Qed.

(** The pairs the operations build list their keys, so that the order
    they are read in is the order they hold. *)
Lemma listed_keys d : listed d → keys d = order d.
Proof. intros Hl. unfold keys. by rewrite bool_decide_eq_true_2. Qed.

Lemma keys_order_listed d : keys d = order d → listed d.
Proof.
  intros Heq. destruct (keys_listed d) as [Hnd Hin]. rewrite Heq in Hnd, Hin.
  split; [done|]. apply set_eq. intros k.
  by rewrite elem_of_list_to_set, elem_of_dom.
Qed.

Lemma listed_empty : listed (∅ : dict V).
Proof. apply keys_order_listed, keys_empty. Qed.

Lemma listed_setitem k v d : listed (setitem k v d).
Proof. apply keys_order_listed. by rewrite keys_setitem. Qed.

Lemma listed_delitem k d : listed (delitem k d).
Proof. apply keys_order_listed. by rewrite keys_delitem. Qed.

End dict.
End DictFacts.

(** ** Facts about the handlers of the server *)

Module ServerFacts.
Import Py PyFacts DictFacts Server.

Ltac step :=
  unfold try_except, bind, ret, lift, gets, modify, datetime_now, print,
    to_dict, Node_init, setitem; simpl.

Lemma advance_0 w : advance 0 w = w.
Proof. by destruct w. Qed.

Lemma map_m_to_dict (l : list (pykey * Node)) w :
  map_m (λ e, to_dict e.2) l w
  = (Ret (snapshots (clock w) (ticks w) l), advance (length l) w).
Proof.
  revert w. induction l as [|e r IH]; intros w; simpl.
  - by rewrite advance_0.
  - step. rewrite IH. simpl. unfold advance. simpl.
    do 3 f_equal. lia.
Qed.

Lemma length_snapshots clk i l : length (snapshots clk i l) = length l.
Proof. revert i. induction l; intros; simpl; auto. Qed.

Lemma snapshots_Forall2 clk i l :
  Forall2 (λ e d, ∃ t, d = to_dict_at e.2 t) l (snapshots clk i l).
Proof.
  revert i. induction l; intros; simpl; constructor; eauto.
Qed.

(** [heartbeat] spelled out by cases. *)
Lemma heartbeat_cases req w :
  heartbeat req w =
  match Py.get (get_json req) "node_id" JNull with
  | Raise e => (Ret (mkResponse 500 (FailureExn e)), w)
  | Ret id =>
      if truthy id then
        match key_of id with
        | None => (Ret (mkResponse 500 (FailureExn TypeError)), w)
        | Some k =>
            match active_nodes w !! k with
            | Some n =>
                (Ret (mkResponse 200 HeartbeatReceived),
                 mkServer
                   (Py.setitem k (set_last_heartbeat (clock w (ticks w)) n)
                      (registry w))
                   (clock w) (S (ticks w)) (console w))
            | None =>
                (Ret (mkResponse 404 (Failure "Node not registered")), w)
            end
        end
      else (Ret (mkResponse 400 (Failure "node_id required")), w)
  end.
Proof.
  unfold heartbeat. step.
  destruct (Py.get _ _ _) as [id|e]; [|done].
  destruct (truthy id); simpl; [|done].
  unfold hash. destruct (key_of id) as [k|]; [|done].
  destruct (active_nodes w !! k); done.
Qed.

(** [unregister_node] spelled out by cases. *)
Lemma unregister_cases req w :
  unregister_node req w =
  match Py.get (get_json req) "node_id" JNull with
  | Raise e => (Ret (mkResponse 500 (FailureExn e)), w)
  | Ret id =>
      if truthy id then
        match key_of id with
        | None => (Ret (mkResponse 500 (FailureExn TypeError)), w)
        | Some k =>
            match active_nodes w !! k with
            | Some n =>
                (Ret (mkResponse 200 (Unregistered id)),
                 set_active_nodes (Py.delitem k) w)
            | None =>
                (Ret (mkResponse 404 (Failure "Node not found")), w)
            end
        end
      else (Ret (mkResponse 400 (Failure "node_id required")), w)
  end.
Proof.
  unfold unregister_node. step.
  destruct (Py.get _ _ _) as [id|e]; [|done].
  destruct (truthy id); simpl; [|done].
  unfold hash. destruct (key_of id) as [k|]; [|done].
  destruct (active_nodes w !! k); done.
Qed.

(** [discover_peers] spelled out by cases. *)
Lemma discover_cases req w :
  discover_peers req w =
  match Py.get (get_json req) "node_id" JNull with
  | Raise e => (Ret (mkResponse 500 (FailureExn e)), w)
  | Ret id =>
      if truthy id then
        let sel := others id (registry w) in
        let peers := snapshots (clock w) (ticks w) sel in
        (Ret (mkResponse 200 (Peers (length peers) peers)),
         advance (length sel) w)
      else (Ret (mkResponse 400 (Failure "node_id required")), w)
  end.
Proof.
  unfold discover_peers. unfold try_except, bind at 1, lift.
  destruct (Py.get _ _ _) as [id|e]; [|done].
  destruct (truthy id); simpl; [|done].
  unfold bind, gets. rewrite map_m_to_dict. done.
Qed.

Lemma list_nodes_cases w :
  list_nodes w =
  let nodes := snapshots (clock w) (ticks w) (Py.items (registry w)) in
  (Ret (mkResponse 200 (Nodes (length nodes) nodes)),
   advance (length (Py.items (registry w))) w).
Proof.
  unfold list_nodes. unfold bind, gets. rewrite map_m_to_dict. done.
Qed.

(** [register_node] on a body that is a dict. *)
Lemma register_cases_obj req m w :
  get_json req = JObj m →
  register_node req w =
  match m !! "node_id", m !! "port" with
  | Some id, Some p =>
      let node := mkNode id (remote_addr req) p
                    (default JNull (m !! "public_key"))
                    (clock w (ticks w)) (clock w (S (ticks w))) in
      match key_of id with
      | Some k =>
          (Ret (mkResponse 201
                  (Registered id (to_dict_at node (clock w (S (S (ticks w))))))),
           mkServer (Py.setitem k node (registry w)) (clock w)
                    (S (S (S (ticks w)))) (console w))
      | None =>
          (Ret (mkResponse 500 (FailureExn TypeError)),
           mkServer (registry w) (clock w) (S (S (ticks w))) (console w))
      end
  | _, _ =>
      (Ret (mkResponse 400 (Failure "Missing required fields: node_id, port")),
       w)
  end.
Proof.
  intros Hm. unfold register_node. rewrite Hm.
  unfold try_except, bind at 1, lift. rewrite all_in_required.
  destruct (m !! "node_id") as [id|] eqn:Hid; simpl;
    [|done].
  destruct (m !! "port") as [p|] eqn:Hp; simpl; [|done].
  step. rewrite Hid. step.
  unfold hash. destruct (key_of id) as [k|]; done.
Qed.

(** [register_node] on a body that is not a dict never gets as far as
    the registry. *)
Lemma register_cases_other req w :
  (∀ m, get_json req ≠ JObj m) →
  ∃ r, register_node req w = (Ret r, w) ∧ status r ≠ 201.
Proof.
  intros Hm. unfold register_node.
  destruct (get_json req) as [|b|z|f|s|l|m] eqn:Hd;
    try (eexists; split; [reflexivity|done]).
  - unfold try_except, bind at 1, lift.
    destruct (all_in _ _) as [[]|e]; simpl;
      eexists; (split; [reflexivity|done]).
  - unfold try_except, bind at 1, lift.
    destruct (all_in _ _) as [[]|e]; simpl;
      eexists; (split; [reflexivity|done]).
  - by destruct (Hm m).
Qed.

(** The reaper's loop deletes the collected ids one by one. *)
Lemma for_each_delete (ks : list pykey) w :
  for_each ks
    (λ k, print (CleanupRemoving k) ;;
          modify (set_active_nodes (Py.delitem k))) w
  = (Ret tt,
     mkServer (foldl (λ d k, Py.delitem k d) (registry w) ks) (clock w)
              (ticks w) (console w ++ (CleanupRemoving <$> ks))).
Proof.
  revert w. induction ks as [|k ks IH]; intros w; simpl.
  - destruct w; simpl. by rewrite app_nil_r.
  - step. rewrite IH. simpl. by rewrite <- app_assoc.
Qed.

Lemma lookup_foldl_delete (ks : list pykey) (d : Py.dict Node) k :
  Py.mapping (foldl (λ d k, Py.delitem k d) d ks) !! k
  = if decide (k ∈ ks) then None else Py.mapping d !! k.
Proof.
  revert d. induction ks as [|k' ks IH]; intros d; cbn [foldl].
  - rewrite decide_False; [done|]. apply not_elem_of_nil.
  - rewrite IH, mapping_delitem. destruct (decide (k ∈ ks)) as [Hin|Hin].
    + rewrite decide_True; [done|]. by right.
    + destruct (decide (k = k')) as [->|Hne].
      * rewrite lookup_delete_eq. rewrite decide_True; [done|]. by left.
      * rewrite lookup_delete_ne by done.
        rewrite decide_False; [done|].
        intros [->|?]%elem_of_cons; done.
Qed.

Lemma elem_of_stale_nodes thr (nodes : Py.dict Node) k :
  k ∈ stale_nodes thr nodes
  ↔ ∃ n, Py.mapping nodes !! k = Some n ∧ last_heartbeat n < thr.
Proof.
  unfold stale_nodes. rewrite list_elem_of_fmap. split.
  - intros [[k' n] [-> [Hlt Hin]%list_elem_of_filter]]. simpl in *.
    apply elem_of_items in Hin. eauto.
  - intros [n [Hk Hlt]]. exists (k, n). split; [done|].
    apply list_elem_of_filter. split; [done|].
    by apply elem_of_items.
Qed.

(** [cleanup_pass] spelled out: one clock reading, then the stale ids
    go, each with its line on the console. *)
Lemma cleanup_pass_cases w :
  cleanup_pass w =
  let thr := clock w (ticks w) - timedelta HEARTBEAT_TIMEOUT in
  let ks := stale_nodes thr (registry w) in
  (Ret tt,
   mkServer (foldl (λ d k, Py.delitem k d) (registry w) ks) (clock w)
            (S (ticks w)) (console w ++ (CleanupRemoving <$> ks))).
Proof.
  unfold cleanup_pass. unfold bind at 1. unfold datetime_now.
  unfold bind at 1. unfold gets. simpl. by rewrite for_each_delete.
Qed.

Lemma cleanup_pass_lookup w k :
  active_nodes (cleanup_pass w).2 !! k
  = match active_nodes w !! k with
    | Some n =>
        if decide (clock w (ticks w) - last_heartbeat n
                   > timedelta HEARTBEAT_TIMEOUT)
        then None else Some n
    | None => None
    end.
Proof.
  rewrite cleanup_pass_cases. unfold active_nodes. simpl.
  rewrite lookup_foldl_delete.
  destruct (Py.mapping (registry w) !! k) as [n|] eqn:Hk.
  - destruct (decide (k ∈ _)) as [Hin|Hin].
    + apply elem_of_stale_nodes in Hin as [n' [Hk' Hlt]].
      rewrite Hk in Hk'. injection Hk' as <-.
      rewrite decide_True; [done|lia].
    + rewrite decide_False; [done|]. intros Hgt. apply Hin.
      apply elem_of_stale_nodes. exists n. split; [done|lia].
  - by destruct (decide _).
Qed.

(** What [register_node] can do to the state, whatever the body. *)
Lemma register_effect req w :
  (∃ r, register_node req w = (Ret r, w) ∧ status r ≠ 201)
  ∨ (∃ r, register_node req w
          = (Ret r, mkServer (registry w) (clock w) (S (S (ticks w)))
                             (console w))
          ∧ status r ≠ 201)
  ∨ (∃ r k n, register_node req w
              = (Ret r, mkServer (Py.setitem k n (registry w)) (clock w)
                                 (S (S (S (ticks w)))) (console w))
              ∧ status r = 201 ∧ req_key req = Some k
              ∧ key_of (node_id n) = Some k).
Proof.
  destruct (get_json req) as [|b|z|f|s|l|m] eqn:Hd;
    try (left; apply register_cases_other; congruence).
  rewrite (register_cases_obj req m w Hd). unfold req_key. rewrite Hd.
  destruct (m !! "node_id") as [id|]; [|left; eauto].
  destruct (m !! "port") as [p|]; [|left; eauto].
  simpl. destruct (key_of id) as [k|] eqn:Hk.
  - right; right. do 3 eexists. split; [reflexivity|]. simpl. done.
  - right; left. eexists. split; [reflexivity|]. done.
Qed.


(** A handler never lets an exception out, so the state [exec] ends in is
    the handler's. *)
Lemma then_ret_tt_state {A} (c : M server A) w :
  (c ;; ret tt) w = (match (c w).1 with
                     | Ret _ => Ret tt
                     | Raise e => Raise e
                     end, (c w).2).
Proof. unfold bind, ret. by destruct (c w) as [[a|e] w']. Qed.

Lemma exec_state o w :
  (exec o w).2 =
  match o with
  | Register req => (register_node req w).2
  | Heartbeat req => (heartbeat req w).2
  | Discover req => (discover_peers req w).2
  | Unregister req => (unregister_node req w).2
  | ListNodes => (list_nodes w).2
  | HealthCheck => (health_check w).2
  | Reap => (cleanup_pass w).2
  end.
Proof. destruct o; cbn [exec]; rewrite ?then_ret_tt_state; done. Qed.

(** Read [active_nodes] as the mapping of the registry. *)
Ltac nodes := unfold active_nodes in *; simpl in *.

(** Split on the innermost tests first. *)
Ltac by_cases :=
  repeat match goal with
         | |- context [match ?x with _ => _ end] =>
             lazymatch x with
             | context [match _ with _ => _ end] => fail
             | _ => destruct x eqn:?
             end
         end; simpl; try done.

Lemma exec_clock o w : clock (exec o w).2 = clock w.
Proof.
  rewrite exec_state. destruct o as [req|req|req|req| | |].
  - destruct (register_effect req w)
      as [(r & -> & _)|[(r & -> & _)|(r & k & n & -> & _)]]; done.
  - rewrite heartbeat_cases. by_cases.
  - rewrite discover_cases. by_cases.
  - rewrite unregister_cases. by_cases.
  - by rewrite list_nodes_cases.
  - done.
  - by rewrite cleanup_pass_cases.
Qed.

Lemma exec_ticks o w : (ticks w ≤ ticks (exec o w).2)%nat.
Proof.
  rewrite exec_state. destruct o as [req|req|req|req| | |].
  - destruct (register_effect req w)
      as [(r & -> & _)|[(r & -> & _)|(r & k & n & -> & _)]]; simpl; lia.
  - rewrite heartbeat_cases. by_cases; lia.
  - rewrite discover_cases. by_cases; lia.
  - rewrite unregister_cases. by_cases.
  - rewrite list_nodes_cases. simpl. lia.
  - simpl. lia.
  - rewrite cleanup_pass_cases. simpl. lia.
Qed.


End ServerFacts.

(** ** Properties of the membership registry *)

Module Registry.
Import Py PyFacts DictFacts Server ServerFacts.

(** No operation lets an exception out. *)
Lemma exec_returns o w : (exec o w).1 = Ret tt.
Proof.
  destruct o as [req|req|req|req| | |]; cbn [exec];
    rewrite ?then_ret_tt_state; cbn [fst].
  - by destruct (register_effect req w)
      as [(r & -> & _)|[(r & -> & _)|(r & k & n & -> & _)]].
  - rewrite heartbeat_cases. by_cases.
  - rewrite discover_cases. by_cases.
  - rewrite unregister_cases. by_cases.
  - by rewrite list_nodes_cases.
  - done.
  - by rewrite cleanup_pass_cases.
Qed.

Lemma after_cons o ops w : after (o :: ops) w = after ops (exec o w).2.
Proof.
  unfold after. cbn [run]. unfold bind.
  pose proof (exec_returns o w) as Hr.
  destruct (exec o w) as [x w']. simpl in Hr. by subst x.
Qed.










(** C10.  [discover_peers], [list_nodes] and [health_check] answer from a
    snapshot and leave the registry mapping exactly as it was, whatever
    the request. *)
Theorem reads_leave_registry (w : server) (req : request) :
  active_nodes (discover_peers req w).2 = active_nodes w
  ∧ active_nodes (list_nodes w).2 = active_nodes w
  ∧ active_nodes (health_check w).2 = active_nodes w.
Proof.
  rewrite discover_cases, list_nodes_cases. repeat split.
  by_cases.
Qed.

(** C4, as stated, fails on a body that is not a dict: the body [null]
    holds neither [node_id] nor [port], yet the membership test raises
    and the answer is 500, not 400. *)
Lemma register_null_body_is_500 :
  get_json Examples.null_body = JNull
  ∧ register_node Examples.null_body Examples.server_AB
    = (Ret (mkResponse 500 (FailureExn TypeError)), Examples.server_AB)
  ∧ ¬ (∃ b w', register_node Examples.null_body Examples.server_AB
               = (Ret (mkResponse 400 b), w')).
Proof.
  assert (Hr : register_node Examples.null_body Examples.server_AB
               = (Ret (mkResponse 500 (FailureExn TypeError)),
                  Examples.server_AB)) by reflexivity.
  split; [reflexivity|]. split; [exact Hr|]. rewrite Hr.
  intros (b & w' & Heq). discriminate.
Qed.

(** C4, amended.  A [register] whose body is a dict that lacks [node_id]
    or [port] is answered with status 400 and changes nothing; the number
    of active nodes is what it was.  A body that is [null], a bool or a
    number is answered 500, the [TypeError] of the membership test.  A
    body that is a string or a list is answered 400 unless both field
    names occur in it, and then 500.  None of them changes the state. *)
Theorem register_missing_field (w : server) (req : request) :
  (∀ m, get_json req = JObj m →
        m !! "node_id" = None ∨ m !! "port" = None →
        register_node req w
        = (Ret (mkResponse 400
                  (Failure "Missing required fields: node_id, port")), w)
        ∧ size (active_nodes (register_node req w).2)
          = size (active_nodes w))
  ∧ (get_json req = JNull ∨ (∃ b, get_json req = JBool b)
     ∨ (∃ z, get_json req = JNum z) ∨ (∃ f, get_json req = JFloat f) →
     register_node req w = (Ret (mkResponse 500 (FailureExn TypeError)), w))
  ∧ ((∃ s, get_json req = JStr s) ∨ (∃ l, get_json req = JArr l) →
     ∃ present : bool,
       all_in required_fields (get_json req) = Ret present
       ∧ register_node req w
         = (Ret (if present
                 then mkResponse 500 (FailureExn TypeError)
                 else mkResponse 400
                        (Failure "Missing required fields: node_id, port")),
            w)).
Proof.
  split; [|split].
  - intros m Hm Hmiss. rewrite (register_cases_obj req m w Hm).
    destruct Hmiss as [-> | ->]; [done|].
    by destruct (m !! "node_id").
  - unfold register_node.
    intros [->|[[b ->]|[[z ->]|[f ->]]]]; reflexivity.
  - unfold register_node. intros [[s ->]|[l ->]].
    + unfold try_except, bind at 1, lift.
      assert (Hall : ∃ present,
                all_in required_fields (JStr s) = Ret present).
      { unfold required_fields. cbn [all_in contains].
        destruct (String.index 0 "node_id" s); [|by eexists].
        destruct (String.index 0 "port" s); by eexists. }
      destruct Hall as [present Hall]. exists present.
      split; [exact Hall|]. rewrite Hall. by destruct present.
    + unfold try_except, bind at 1, lift.
      assert (Hall : ∃ present,
                all_in required_fields (JArr l) = Ret present).
      { unfold required_fields. cbn [all_in contains].
        destruct (existsb (is_str "node_id") l); [|by eexists].
        destruct (existsb (is_str "port") l); by eexists. }
      destruct Hall as [present Hall]. exists present.
      split; [exact Hall|]. rewrite Hall. by destruct present.
Qed.

Lemma register_missing_field_witness :
  register_node Examples.register_no_port Examples.server_AB
  = (Ret (mkResponse 400 (Failure "Missing required fields: node_id, port")),
     Examples.server_AB)
  ∧ size (active_nodes
            (register_node Examples.register_no_port Examples.server_AB).2)
    = size (active_nodes Examples.server_AB).
Proof.
  apply (proj1 (register_missing_field Examples.server_AB
                  Examples.register_no_port)
           (list_to_map [("node_id", JStr "C")])).
  - reflexivity.
  - right. vm_compute. reflexivity.
Defined.

(** C5.  Registering a [node_id] that is already present succeeds with
    status 201 and files a fresh record under it: address, port and
    public key of this request, [last_heartbeat] and [registered_at] read
    from the clock during this call.  Nothing of the old record, its join
    time included, survives; the other records stay. *)
Theorem reregister_overwrites
    (w : server) (req : request) (m : gmap string json)
    (id p : json) (k : pykey) (old : Node) :
  get_json req = JObj m →
  m !! "node_id" = Some id → m !! "port" = Some p →
  key_of id = Some k →
  active_nodes w !! k = Some old →
  let fresh := mkNode id (remote_addr req) p
                 (default JNull (m !! "public_key"))
                 (clock w (ticks w)) (clock w (S (ticks w))) in
  ∃ w',
    register_node req w
    = (Ret (mkResponse 201
              (Registered id (to_dict_at fresh (clock w (S (S (ticks w))))))),
       w')
    ∧ active_nodes w' !! k = Some fresh
    ∧ (∀ k', k' ≠ k → active_nodes w' !! k' = active_nodes w !! k').
Proof.
  intros Hm Hid Hp Hk Hold fresh.
  rewrite (register_cases_obj req m w Hm), Hid, Hp. simpl. rewrite Hk.
  eexists. split; [reflexivity|]. simpl. split.
  - apply lookup_insert_eq.
  - intros k' Hne. by apply lookup_insert_ne.
Qed.

Lemma reregister_overwrites_witness :
  ∃ w',
    register_node Examples.register_A Examples.server_AB
    = (Ret (mkResponse 201
              (Registered (JStr "A")
                 (mkNodeDict (JStr "A") "10.0.0.1" (JNum 9001) JNull
                             6000000 1000000))),
       w')
    ∧ active_nodes w' !! KStr "A"
      = Some (mkNode (JStr "A") "10.0.0.1" (JNum 9001) JNull 6000000 7000000)
    ∧ (∀ k', k' ≠ KStr "A" →
             active_nodes w' !! k' = active_nodes Examples.server_AB !! k').
Proof.
  assert (Hm : get_json Examples.register_A
               = JObj (list_to_map [("node_id", JStr "A");
                                    ("port", JNum 9001)])) by reflexivity.
  assert (Hold : active_nodes Examples.server_AB !! KStr "A"
                 = Some Examples.node_A) by (vm_compute; reflexivity).
  exact (reregister_overwrites Examples.server_AB Examples.register_A
           _ (JStr "A") (JNum 9001) (KStr "A") Examples.node_A
           Hm eq_refl eq_refl eq_refl Hold).
Defined.

(** C3, as stated, fails on a node registered under the empty string: it
    is in the registry, yet its heartbeat is answered 400 and not 200. *)
Lemma heartbeat_rejects_registered_empty_id :
  active_nodes Examples.server_empty_id !! KStr "" = Some Examples.node_empty
  ∧ get_json Examples.as_empty = JObj (list_to_map [("node_id", JStr "")])
  ∧ heartbeat Examples.as_empty Examples.server_empty_id
    = (Ret (mkResponse 400 (Failure "node_id required")),
       Examples.server_empty_id)
  ∧ ¬ (∃ b w', heartbeat Examples.as_empty Examples.server_empty_id
               = (Ret (mkResponse 200 b), w')).
Proof.
  assert (Hhb : heartbeat Examples.as_empty Examples.server_empty_id
                = (Ret (mkResponse 400 (Failure "node_id required")),
                   Examples.server_empty_id))
    by (vm_compute; reflexivity).
  split; [vm_compute; reflexivity|]. split; [reflexivity|].
  split; [exact Hhb|]. rewrite Hhb. intros (b & w' & Heq). discriminate.
Qed.

(** C3, amended.  For a request whose [node_id] is hashable: if it is
    truthy, [heartbeat] answers 200 exactly when the id is registered, and
    then sets [last_heartbeat] of that record to the clock reading of the
    call, leaving its other fields and every other record alone; when the
    id is not registered it answers 404 and changes nothing.  If the id
    is falsy the answer is 400 and nothing changes. *)
Theorem heartbeat_refreshes_registered
    (w : server) (req : request) (m : gmap string json)
    (id : json) (k : pykey) :
  get_json req = JObj m → m !! "node_id" = Some id → key_of id = Some k →
  (truthy id = true →
     (∀ n, active_nodes w !! k = Some n →
        ∃ w' n',
          heartbeat req w = (Ret (mkResponse 200 HeartbeatReceived), w')
          ∧ active_nodes w' !! k = Some n'
          ∧ last_heartbeat n' = clock w (ticks w)
          ∧ node_id n' = node_id n ∧ ip_address n' = ip_address n
          ∧ port n' = port n ∧ public_key n' = public_key n
          ∧ registered_at n' = registered_at n
          ∧ (∀ k', k' ≠ k → active_nodes w' !! k' = active_nodes w !! k'))
     ∧ (active_nodes w !! k = None →
        heartbeat req w
        = (Ret (mkResponse 404 (Failure "Node not registered")), w))
     ∧ ((∃ b w', heartbeat req w = (Ret (mkResponse 200 b), w'))
        ↔ is_Some (active_nodes w !! k)))
  ∧ (truthy id = false →
     heartbeat req w = (Ret (mkResponse 400 (Failure "node_id required")), w)).
Proof.
  intros Hm Hid Hk. rewrite heartbeat_cases, Hm. simpl. rewrite Hid. simpl.
  split; intros Ht; rewrite Ht; [|done]. rewrite Hk.
  destruct (active_nodes w !! k) as [n|] eqn:Hn.
  - repeat split.
    + intros n0 [= <-]. do 2 eexists. split; [reflexivity|]. simpl.
      split; [apply lookup_insert_eq|]. repeat split.
      intros k' Hne. by apply lookup_insert_ne.
    + done.
    + by exists n.
    + intros _. eauto.
  - repeat split.
    + done.
    + intros (b & w' & Heq). discriminate.
    + intros [? ?]. discriminate.
Qed.

Lemma heartbeat_refreshes_registered_witness :
  (∃ w' n',
     heartbeat Examples.as_A Examples.server_AB
     = (Ret (mkResponse 200 HeartbeatReceived), w')
     ∧ active_nodes w' !! KStr "A" = Some n'
     ∧ last_heartbeat n' = 6000000)
  ∧ heartbeat Examples.as_empty Examples.server_empty_id
    = (Ret (mkResponse 400 (Failure "node_id required")),
       Examples.server_empty_id).
Proof.
  split.
  - destruct (heartbeat_refreshes_registered Examples.server_AB
                Examples.as_A (list_to_map [("node_id", JStr "A")])
                (JStr "A") (KStr "A") eq_refl eq_refl eq_refl)
      as [Htrue _].
    destruct (Htrue eq_refl) as (Hreg & _ & _).
    destruct (Hreg Examples.node_A) as (w' & n' & Heq & Hn' & Hlh & _).
    + vm_compute. reflexivity.
    + exists w', n'. split; [exact Heq|]. split; [exact Hn'|exact Hlh].
  - destruct (heartbeat_refreshes_registered Examples.server_empty_id
                Examples.as_empty (list_to_map [("node_id", JStr "")])
                (JStr "") (KStr "") eq_refl eq_refl eq_refl)
      as [_ Hfalse].
    exact (Hfalse eq_refl).
Defined.

(** What [discover_peers] answers to a truthy requester. *)
Lemma discover_truthy w req m r :
  get_json req = JObj m → m !! "node_id" = Some r → truthy r = true →
  ∃ sel peers w',
    discover_peers req w
    = (Ret (mkResponse 200 (Peers (length peers) peers)), w')
    ∧ active_nodes w' = active_nodes w
    ∧ NoDup sel
    ∧ sel `sublist_of` Py.items (registry w)
    ∧ (∀ k n, (k, n) ∈ sel
              ↔ active_nodes w !! k = Some n
                ∧ (key_of r ≠ Some k ∨ k = KNaN))
    ∧ Forall2 (λ e d, ∃ t, d = to_dict_at e.2 t) sel peers
    ∧ (well_keyed (active_nodes w) → key_of r ≠ Some KNaN →
       ∀ d, d ∈ peers → key_of (d_node_id d) ≠ key_of r).
Proof.
  intros Hm Hid Ht. rewrite discover_cases, Hm. simpl. rewrite Hid. simpl.
  rewrite Ht.
  assert (Hsel : ∀ k n, (k, n) ∈ others r (registry w)
                        ↔ active_nodes w !! k = Some n
                          ∧ (key_of r ≠ Some k ∨ k = KNaN)).
  { intros k n. unfold others. rewrite list_elem_of_filter. simpl.
    rewrite key_eqb_false, elem_of_items. unfold active_nodes. tauto. }
  exists (others r (registry w)). do 2 eexists.
  split; [reflexivity|]. split; [done|].
  split; [apply NoDup_filter, NoDup_items|].
  split; [apply sublist_filter|].
  split; [exact Hsel|]. split; [apply snapshots_Forall2|].
  intros Hwk Hnan d Hd.
  apply list_elem_of_lookup in Hd as [i Hi].
  destruct (Forall2_lookup_r _ _ _ _ _
              (snapshots_Forall2 (clock w) (ticks w) (others r (registry w)))
              Hi) as ([k n] & Hsi & t & ->).
  apply list_elem_of_lookup_2, Hsel in Hsi as [Hkn Hne]. simpl.
  rewrite (Hwk _ _ Hkn). destruct Hne as [Hne| ->]; congruence.
Qed.

Lemma well_keyed_insert (nodes : gmap pykey Node) k n :
  well_keyed nodes → key_of (node_id n) = Some k →
  well_keyed (<[k := n]> nodes).
Proof.
  intros Hwk Hk k' n'. rewrite lookup_insert.
  case_decide; [by intros [= <-]; subst|]. apply Hwk.
Qed.

(** Every operation keeps the records filed under their own ids, so
    every state the server reaches from an empty registry is well keyed. *)
Lemma exec_well_keyed o w :
  well_keyed (active_nodes w) → well_keyed (active_nodes (exec o w).2).
Proof.
  intros Hwk. rewrite exec_state. destruct o as [req|req|req|req| | |].
  - destruct (register_effect req w)
      as [(r & -> & _)|[(r & -> & _)|(r & k & n & -> & _ & _ & Hk)]];
      simpl; try done.
    by apply well_keyed_insert.
  - rewrite heartbeat_cases.
    destruct (Py.get _ _ _) as [id|e]; [|done].
    destruct (truthy id); [|done].
    destruct (key_of id) as [k|]; [|done].
    destruct (active_nodes w !! k) as [n|] eqn:Hn; [|done]. simpl.
    apply well_keyed_insert; [done|]. simpl. by apply Hwk.
  - rewrite discover_cases. by_cases.
  - rewrite unregister_cases.
    destruct (Py.get _ _ _) as [id|e]; [|done].
    destruct (truthy id); [|done].
    destruct (key_of id) as [k|]; [|done].
    destruct (active_nodes w !! k) as [n|] eqn:Hn; [|done]. simpl.
    intros k' n' Hk'. unfold active_nodes in Hk'. simpl in Hk'.
    apply lookup_delete_Some in Hk' as [_ Hk']. by apply Hwk.
  - by rewrite list_nodes_cases.
  - done.
  - intros k n. rewrite cleanup_pass_lookup.
    destruct (active_nodes w !! k) as [n0|] eqn:Hn0; [|done].
    destruct (decide _); [done|]. intros [= <-]. by apply Hwk.
Qed.

Lemma reachable_well_keyed ops clk :
  well_keyed (active_nodes (after ops (mkServer ∅ clk 0 []))).
Proof.
  assert (Hgen : ∀ w, well_keyed (active_nodes w) →
                      well_keyed (active_nodes (after ops w))).
  { induction ops as [|o ops IH]; intros w Hwk; [done|].
    rewrite after_cons. by apply IH, exec_well_keyed. }
  apply Hgen. intros k n. unfold active_nodes. simpl.
  by rewrite lookup_empty.
Qed.









End Registry.

(** ** Properties of the mesh node *)

Module Agent.
Import Py PyFacts MeshNode.

Section WithWire.
Context {W : Wire}.

Ltac step :=
  unfold try_except, bind, ret, lift, gets, modify, print, emit,
    datetime_now; simpl.

(** One turn of the merge loop either leaves the cache alone or files
    the record under a key that was absent. *)
Lemma merge_peer_effect (peer : json) (a : mesh_node) :
  peers (merge_peer peer a).2 = peers a
  ∨ (∃ k, peer_key peer = Ret k ∧ peers a !! k = None
          ∧ peers (merge_peer peer a).2 = <[k := peer]> (peers a)).
Proof.
  unfold merge_peer, peer_key. step.
  destruct (getitem peer "node_id") as [peer_id|e]; [|by left].
  destruct (hash peer_id) as [k|e]; [|by left].
  destruct (peers a !! k) eqn:Hk; [by left|]. simpl.
  right. exists k. split; [done|]. split; [done|].
  destruct (getitem peer "ip_address"); [|done].
  destruct (getitem peer "port"); done.
Qed.

Lemma for_each_cons_state (x : json) r (a : mesh_node) :
  (for_each (x :: r) merge_peer a).2
  = match merge_peer x a with
    | (Ret _, a1) => (for_each r merge_peer a1).2
    | (Raise _, a1) => a1
    end.
Proof.
  cbn [for_each]. unfold bind. by destruct (merge_peer x a) as [[[]|e] a1].
Qed.

Lemma for_each_merge (items : list json) (a : mesh_node) :
  let a' := (for_each items merge_peer a).2 in
  (∀ k v, peers a !! k = Some v → peers a' !! k = Some v)
  ∧ (∀ k v, peers a' !! k = Some v →
            peers a !! k = Some v
            ∨ (peers a !! k = None ∧ v ∈ items ∧ peer_key v = Ret k)).
Proof.
  revert a. induction items as [|x r IH]; intros a; cbn zeta.
  - simpl. split; [done|]. intros k v Hk. by left.
  - rewrite for_each_cons_state.
    pose proof (merge_peer_effect x a) as Hx.
    destruct (merge_peer x a) as [[[]|e] a1]; simpl in Hx.
    + specialize (IH a1). cbn zeta in IH. destruct IH as [IHkeep IHnew].
      destruct Hx as [Heq|(kx & Hkx & Hnone & Heq)]; rewrite Heq in *.
      * split; [done|]. intros k v Hk.
        destruct (IHnew k v Hk) as [?|(? & ? & ?)]; [by left|].
        right. split; [done|]. split; [by right|done].
      * split.
        -- intros k v Hk. apply IHkeep. rewrite lookup_insert_ne; [done|].
           intros ->. congruence.
        -- intros k v Hk. destruct (IHnew k v Hk) as [Hin|(Hn & Hv & Hkv)].
           ++ rewrite lookup_insert in Hin. case_decide as Hd.
              ** injection Hin as <-. subst kx. right.
                 split; [done|]. split; [by left|done].
              ** by left.
           ++ rewrite lookup_insert in Hn. case_decide; [done|].
              right. split; [done|]. split; [by right|done].
    + simpl. destruct Hx as [Heq|(kx & Hkx & Hnone & Heq)]; rewrite Heq.
      * split; [done|]. intros k v Hk. by left.
      * split.
        -- intros k v Hk. rewrite lookup_insert_ne; [done|].
           intros ->. congruence.
        -- intros k v Hk. rewrite lookup_insert in Hk. case_decide as Hd.
           ++ injection Hk as <-. subst kx. right.
              split; [done|]. split; [by left|done].
           ++ by left.
Qed.

(** A round merges what the answer offers, and touches the cache in no
    other way. *)
Lemma discover_round_merges (post : outcome http_response) (a : mesh_node) :
  ∃ a0, peers a0 = peers a
        ∧ peers (discover_round post a).2
          = peers (for_each (offered post) merge_peer a0).2.
Proof.
  unfold discover_round, offered, try_except, bind, lift, print, emit, ret.
  destruct post as [response|e]; simpl; [|by exists a].
  destruct (status_code response =? 200); simpl; [|by exists a].
  destruct (resp_json response) as [data|e]; simpl; [|by exists a].
  destruct (getitem data "peers") as [new_peers|e]; simpl; [|by exists a].
  destruct (truthy new_peers); simpl; [|by exists a].
  destruct new_peers as [|b|z|f|s|l|m]; simpl; try by exists a.
  all: match goal with
       | |- context [for_each ?l merge_peer ?a0] =>
           exists a0; split; [done|];
           by destruct (for_each l merge_peer a0) as [[[]|e] a1]
       end.
Qed.

Lemma discover_round_effect (post : outcome http_response) (a : mesh_node) :
  let a' := (discover_round post a).2 in
  (∀ k v, peers a !! k = Some v → peers a' !! k = Some v)
  ∧ (∀ k v, peers a' !! k = Some v →
            peers a !! k = Some v
            ∨ (peers a !! k = None ∧ v ∈ offered post ∧ peer_key v = Ret k)).
Proof.
  cbn zeta. destruct (discover_round_merges post a) as (a0 & Ha0 & ->).
  rewrite <- Ha0. apply for_each_merge.
Qed.

Lemma discover_peers_keeps (posts : list (outcome http_response))
    (a : mesh_node) k v :
  peers a !! k = Some v → peers (discover_peers posts a).2 !! k = Some v.
Proof.
  revert a. induction posts as [|post r IH]; intros a Hk; [done|].
  cbn [discover_peers]. unfold bind, gets.
  destruct (running a); [|done].
  pose proof (proj1 (discover_round_effect post a) k v Hk) as H1.
  destruct (discover_round post a) as [[[]|e] a1]; simpl in *; [|done].
  by apply IH.
Qed.

(** C8.  One round of the discovery merge leaves every cached entry the
    very record it was, whatever the registry answered; an entry the
    round adds is a record of the answer, filed under its own id, and that
    id was not cached.  The same holds of the cached entries over any
    number of rounds. *)
Theorem discovery_merge_keeps_cached
    (a : mesh_node) (post : outcome http_response)
    (posts : list (outcome http_response)) (k : pykey) (v : json) :
  (peers a !! k = Some v →
     peers (discover_round post a).2 !! k = Some v
     ∧ peers (discover_peers posts a).2 !! k = Some v)
  ∧ (peers (discover_round post a).2 !! k = Some v →
     peers a !! k = Some v
     ∨ (peers a !! k = None ∧ v ∈ offered post ∧ peer_key v = Ret k)).
Proof.
  destruct (discover_round_effect post a) as [Hkeep Hnew]. split.
  - intros Hk. split; [by apply Hkeep|by apply discover_peers_keeps].
  - apply Hnew.
Qed.

(** C7.  [send_message_to_peer] to a peer id that is not cached returns
    [False] after printing that the peer was not found: the trace gains
    that line and no socket event, and the cache and every other field
    of the node are as before. *)
Theorem send_to_unknown_peer
    (a : mesh_node) (net : network) (peer_id message_type payload : string) :
  peers a !! KStr peer_id = None →
  send_message_to_peer net peer_id message_type payload a
  = (Ret (JBool false),
     mkMeshNode (node_id a) (server_url a) (listen_port a) (cache a)
                (running a) (clock a) (ticks a)
                (trace a ++ [Print (PeerNotFound peer_id)])).
Proof.
  intros Hk. unfold send_message_to_peer. unfold bind at 1. unfold gets.
  cbv beta iota. rewrite Hk. reflexivity.
Qed.




End WithWire.

#[local] Existing Instance Examples.loopback.

Lemma discovery_merge_keeps_cached_witness :
  (peers (discover_round Examples.discover_answer Examples.node_beta).2
   !! KStr "Node_Alpha" = Some Examples.alpha_record
   ∧ peers (discover_peers
              [Examples.discover_answer; Examples.discover_answer]
              Examples.node_beta).2
     !! KStr "Node_Alpha" = Some Examples.alpha_record)
  ∧ (peers Examples.node_beta !! KStr "Node_Gamma"
     = Some Examples.gamma_record
     ∨ (peers Examples.node_beta !! KStr "Node_Gamma" = None
        ∧ Examples.gamma_record ∈ offered Examples.discover_answer
        ∧ peer_key Examples.gamma_record = Ret (KStr "Node_Gamma"))).
Proof.
  split.
  - apply (proj1 (discovery_merge_keeps_cached Examples.node_beta
                    Examples.discover_answer
                    [Examples.discover_answer; Examples.discover_answer]
                    (KStr "Node_Alpha") Examples.alpha_record)).
    reflexivity.
  - apply (proj2 (discovery_merge_keeps_cached Examples.node_beta
                    Examples.discover_answer []
                    (KStr "Node_Gamma") Examples.gamma_record)).
    vm_compute. reflexivity.
Defined.

Lemma send_to_unknown_peer_witness :
  send_message_to_peer Examples.local_network "Node_Gamma" "text" "hi"
    Examples.node_beta
  = (Ret (JBool false),
     mkMeshNode "Node_Beta" "http://127.0.0.1:5000" 8002
       (cache Examples.node_beta) true Examples.seconds 0
       [Print (PeerNotFound "Node_Gamma")]).
Proof.
  exact (send_to_unknown_peer Examples.node_beta Examples.local_network
           "Node_Gamma" "text" "hi" eq_refl).
Defined.



End Agent.

(** ** Further properties of the registry *)

Module RegistryMore.
Import Py PyFacts DictFacts Server ServerFacts Registry.

Lemma filter_all {A} (P : A → Prop) `{∀ x, Decision (P x)} (l : list A) :
  Forall P l → filter P l = l.
Proof.
  induction 1 as [|x l Hx Hl IH]; [done|].
  rewrite filter_cons_True by done. by rewrite IH.
Qed.

Lemma get_node_id m id :
  m !! "node_id" = Some id → Py.get (JObj m) "node_id" JNull = Ret id.
Proof. intros Hid. simpl. by rewrite Hid. Qed.

(** X1.  [unregister_node] with a truthy, hashable id: if the id is
    registered the answer is 200, its record is gone at once, every other
    record stays and the registry is one smaller, and a heartbeat for the
    id right after is answered 404; if it is not registered the answer is
    404 and nothing changes. *)
Theorem unregister_removes_registered
    (w : server) (req : request) (m : gmap string json)
    (id : json) (k : pykey) :
  get_json req = JObj m → m !! "node_id" = Some id →
  truthy id = true → key_of id = Some k →
  (∀ n, active_nodes w !! k = Some n →
     ∃ w',
       unregister_node req w = (Ret (mkResponse 200 (Unregistered id)), w')
       ∧ active_nodes w' !! k = None
       ∧ (∀ k', k' ≠ k → active_nodes w' !! k' = active_nodes w !! k')
       ∧ S (size (active_nodes w')) = size (active_nodes w)
       ∧ heartbeat req w'
         = (Ret (mkResponse 404 (Failure "Node not registered")), w'))
  ∧ (active_nodes w !! k = None →
     unregister_node req w
     = (Ret (mkResponse 404 (Failure "Node not found")), w)).
Proof.
  intros Hm Hid Ht Hk. rewrite unregister_cases, Hm, (get_node_id _ _ Hid).
  rewrite Ht, Hk. split.
  - intros n Hn. rewrite Hn. eexists. split; [reflexivity|]. nodes.
    split; [apply lookup_delete_eq|].
    split; [intros k' Hne; by apply lookup_delete_ne|].
    split.
    + rewrite map_size_delete, Hn. simpl.
      assert (size (Py.mapping (registry w)) ≠ 0%nat); [|lia].
      apply map_size_ne_0_lookup_2 with k. by exists n.
    + rewrite heartbeat_cases, Hm, (get_node_id _ _ Hid), Ht, Hk. nodes.
      by rewrite lookup_delete_eq.
  - by intros ->.
Qed.

Lemma unregister_removes_registered_witness :
  (∃ w',
     unregister_node Examples.as_A Examples.server_AB
     = (Ret (mkResponse 200 (Unregistered (JStr "A"))), w')
     ∧ active_nodes w' !! KStr "A" = None
     ∧ S (size (active_nodes w')) = size (active_nodes Examples.server_AB))
  ∧ unregister_node Examples.as_C Examples.server_AB
    = (Ret (mkResponse 404 (Failure "Node not found")), Examples.server_AB).
Proof.
  split.
  - destruct (unregister_removes_registered Examples.server_AB Examples.as_A
                (list_to_map [("node_id", JStr "A")]) (JStr "A") (KStr "A")
                eq_refl eq_refl eq_refl eq_refl) as [Hreg _].
    destruct (Hreg Examples.node_A) as (w' & Heq & Hgone & _ & Hsize & _).
    + vm_compute. reflexivity.
    + exists w'. split; [exact Heq|]. split; [exact Hgone|exact Hsize].
  - destruct (unregister_removes_registered Examples.server_AB Examples.as_C
                (list_to_map [("node_id", JStr "C")]) (JStr "C") (KStr "C")
                eq_refl eq_refl eq_refl eq_refl) as [_ Hnot].
    apply Hnot. vm_compute. reflexivity.
Defined.

(** X2.  Registering an id that is not in the registry and unregistering
    it again gives back the registry mapping as it was: the answers are
    201 and 200, and no other record is touched on the way. *)
Theorem register_then_unregister_restores
    (w : server) (reg unreg : request) (mr mu : gmap string json)
    (id p : json) (k : pykey) :
  get_json reg = JObj mr → mr !! "node_id" = Some id → mr !! "port" = Some p →
  get_json unreg = JObj mu → mu !! "node_id" = Some id →
  truthy id = true → key_of id = Some k →
  active_nodes w !! k = None →
  ∃ r1 w1 w2,
    register_node reg w = (Ret r1, w1) ∧ status r1 = 201
    ∧ unregister_node unreg w1 = (Ret (mkResponse 200 (Unregistered id)), w2)
    ∧ active_nodes w2 = active_nodes w.
Proof.
  intros Hmr Hid Hp Hmu Hid' Ht Hk Hnone.
  rewrite (register_cases_obj reg mr w Hmr), Hid, Hp. simpl. rewrite Hk.
  do 3 eexists. split; [reflexivity|]. split; [done|].
  rewrite unregister_cases, Hmu, (get_node_id _ _ Hid'), Ht, Hk. nodes.
  rewrite lookup_insert_eq. split; [reflexivity|]. simpl.
  rewrite delete_insert_eq. by apply delete_id.
Qed.

Lemma register_then_unregister_restores_witness :
  ∃ r1 w1 w2,
    register_node Examples.register_C Examples.server_AB = (Ret r1, w1)
    ∧ status r1 = 201
    ∧ unregister_node Examples.as_C w1
      = (Ret (mkResponse 200 (Unregistered (JStr "C"))), w2)
    ∧ active_nodes w2 = active_nodes Examples.server_AB.
Proof.
  assert (Hnone : active_nodes Examples.server_AB !! KStr "C" = None)
    by (vm_compute; reflexivity).
  exact (register_then_unregister_restores Examples.server_AB
           Examples.register_C Examples.as_C
           (list_to_map [("node_id", JStr "C"); ("port", JNum 9005)])
           (list_to_map [("node_id", JStr "C")])
           (JStr "C") (JNum 9005) (KStr "C")
           eq_refl eq_refl eq_refl eq_refl eq_refl eq_refl eq_refl Hnone).
Defined.

Lemma index_cases w :
  index w
  = (Ret (mkServiceInfo "Mobile Mesh Sentinel 2.0 - Signaling Server"
            "online" "2.0"
            [("health", "/health"); ("register", "/register (POST)");
             ("heartbeat", "/heartbeat (POST)");
             ("discover", "/discover (POST)");
             ("unregister", "/unregister (POST)"); ("nodes", "/nodes (GET)")]
            (size (active_nodes w)) (clock w (ticks w))),
     advance 1 w).
Proof. reflexivity. Qed.

(** X3.  No endpoint lets an exception out, whatever the body and the
    state: each one answers, [register_node] with 201, 400 or 500,
    [heartbeat] and [unregister_node] with 200, 400, 404 or 500,
    [discover_peers] with 200, 400 or 500, and [list_nodes] and
    [health_check] with 200. *)
Theorem endpoints_always_answer (w : server) (req : request) :
  answers [201; 400; 500] (register_node req w)
  ∧ answers [200; 400; 404; 500] (heartbeat req w)
  ∧ answers [200; 400; 500] (discover_peers req w)
  ∧ answers [200; 400; 404; 500] (unregister_node req w)
  ∧ answers [200] (list_nodes w)
  ∧ answers [200] (health_check w).
Proof.
  unfold answers. repeat split.
  - destruct (get_json req) as [|b|z|f|s|l|m] eqn:Hd.
    7: { rewrite (register_cases_obj req m w Hd).
         destruct (m !! "node_id") as [id|];
           [|eexists; split; [reflexivity|set_solver]].
         destruct (m !! "port") as [p|];
           [|eexists; split; [reflexivity|set_solver]].
         simpl. destruct (key_of id);
           eexists; (split; [reflexivity|set_solver]). }
    all: unfold register_node; rewrite Hd;
      unfold try_except, bind at 1, lift;
      try (eexists; split; [reflexivity|set_solver]).
    all: destruct (all_in _ _) as [[]|e]; simpl;
      eexists; (split; [reflexivity|set_solver]).
  - rewrite heartbeat_cases.
    destruct (Py.get _ _ _) as [id|e];
      [|eexists; split; [reflexivity|set_solver]].
    destruct (truthy id); [|eexists; split; [reflexivity|set_solver]].
    destruct (key_of id) as [k|];
      [|eexists; split; [reflexivity|set_solver]].
    destruct (active_nodes w !! k);
      eexists; (split; [reflexivity|set_solver]).
  - rewrite discover_cases.
    destruct (Py.get _ _ _) as [id|e];
      [|eexists; split; [reflexivity|set_solver]].
    destruct (truthy id); eexists; (split; [reflexivity|set_solver]).
  - rewrite unregister_cases.
    destruct (Py.get _ _ _) as [id|e];
      [|eexists; split; [reflexivity|set_solver]].
    destruct (truthy id); [|eexists; split; [reflexivity|set_solver]].
    destruct (key_of id) as [k|];
      [|eexists; split; [reflexivity|set_solver]].
    destruct (active_nodes w !! k);
      eexists; (split; [reflexivity|set_solver]).
  - rewrite list_nodes_cases. eexists. split; [reflexivity|set_solver].
  - eexists. split; [reflexivity|set_solver].
Qed.

(** X4.  A body that is not a dict never reaches the registry:
    [heartbeat], [discover_peers] and [unregister_node] answer 500 with the
    [AttributeError] of its missing [get], [register_node] answers 400 or
    500, and each leaves the whole state, clock included, as it was. *)
Theorem non_dict_body_rejected (w : server) (req : request) :
  (∀ m, get_json req ≠ JObj m) →
  heartbeat req w = (Ret (mkResponse 500 (FailureExn AttributeError)), w)
  ∧ discover_peers req w
    = (Ret (mkResponse 500 (FailureExn AttributeError)), w)
  ∧ unregister_node req w
    = (Ret (mkResponse 500 (FailureExn AttributeError)), w)
  ∧ ∃ r, register_node req w = (Ret r, w) ∧ (status r = 400 ∨ status r = 500).
Proof.
  intros Hm. rewrite heartbeat_cases, discover_cases, unregister_cases.
  assert (Hget : Py.get (get_json req) "node_id" JNull = Raise AttributeError).
  { destruct (get_json req) as [| | | | | |m]; try done. by destruct (Hm m). }
  rewrite Hget. repeat split.
  unfold register_node.
  destruct (get_json req) as [|b|z|f|s|l|m] eqn:Hd;
    try (eexists; split; [reflexivity|by right]).
  - unfold try_except, bind at 1, lift.
    destruct (all_in _ _) as [[]|e]; simpl;
      eexists; (split; [reflexivity|auto]).
  - unfold try_except, bind at 1, lift.
    destruct (all_in _ _) as [[]|e]; simpl;
      eexists; (split; [reflexivity|auto]).
  - by destruct (Hm m).
Qed.

Lemma non_dict_body_rejected_witness :
  heartbeat Examples.null_body Examples.server_AB
  = (Ret (mkResponse 500 (FailureExn AttributeError)), Examples.server_AB)
  ∧ ∃ r, register_node Examples.null_body Examples.server_AB
         = (Ret r, Examples.server_AB)
         ∧ (status r = 400 ∨ status r = 500).
Proof.
  destruct (non_dict_body_rejected Examples.server_AB Examples.null_body)
    as (Hhb & _ & _ & Hreg).
  - intros m. discriminate.
  - split; [exact Hhb|exact Hreg].
Defined.

(** X5.  A successful [register_node] makes the registry one larger when
    the id is new and leaves its size alone when the id was there, and a
    [health_check] right after it reports that number of active nodes. *)
Theorem register_counts
    (w : server) (req : request) (m : gmap string json)
    (id p : json) (k : pykey) :
  get_json req = JObj m →
  m !! "node_id" = Some id → m !! "port" = Some p → key_of id = Some k →
  ∃ r w',
    register_node req w = (Ret r, w') ∧ status r = 201
    ∧ size (active_nodes w')
      = match active_nodes w !! k with
        | Some _ => size (active_nodes w)
        | None => S (size (active_nodes w))
        end
    ∧ ∃ t, (health_check w').1
           = Ret (mkResponse 200 (Health t (size (active_nodes w')))).
Proof.
  intros Hm Hid Hp Hk.
  rewrite (register_cases_obj req m w Hm), Hid, Hp. simpl. rewrite Hk.
  do 2 eexists. split; [reflexivity|]. split; [done|]. nodes.
  split; [|by eexists].
  rewrite map_size_insert. by destruct (Py.mapping (registry w) !! k).
Qed.

Lemma register_counts_witness :
  (∃ r w',
     register_node Examples.register_C Examples.server_AB = (Ret r, w')
     ∧ size (active_nodes w') = 3%nat)
  ∧ (∃ r w',
       register_node Examples.register_A Examples.server_AB = (Ret r, w')
       ∧ size (active_nodes w') = 2%nat).
Proof.
  split.
  - destruct (register_counts Examples.server_AB Examples.register_C
                (list_to_map [("node_id", JStr "C"); ("port", JNum 9005)])
                (JStr "C") (JNum 9005) (KStr "C")
                eq_refl eq_refl eq_refl eq_refl)
      as (r & w' & Heq & _ & Hsize & _).
    exists r, w'. split; [exact Heq|]. rewrite Hsize. vm_compute. reflexivity.
  - destruct (register_counts Examples.server_AB Examples.register_A
                (list_to_map [("node_id", JStr "A"); ("port", JNum 9001)])
                (JStr "A") (JNum 9001) (KStr "A")
                eq_refl eq_refl eq_refl eq_refl)
      as (r & w' & Heq & _ & Hsize & _).
    exists r, w'. split; [exact Heq|]. rewrite Hsize. vm_compute. reflexivity.
Defined.

(** How many entries the comprehension of [discover_peers] keeps: all
    but the one filed under the requester's key, and all of them when the
    requester is [NaN]. *)
Lemma length_others (r : json) (nodes : Py.dict Node) :
  match key_of r with
  | Some KNaN | None => length (others r nodes) = size (Py.mapping nodes)
  | Some k =>
      match Py.mapping nodes !! k with
      | Some _ => S (length (others r nodes)) = size (Py.mapping nodes)
      | None => length (others r nodes) = size (Py.mapping nodes)
      end
  end.
Proof.
  set (m := Py.mapping nodes).
  assert (Hperm : length (others r nodes)
                  = length (filter (λ e, key_eqb e.1 r = false)
                                   (map_to_list m))).
  { unfold others. apply Permutation_length.
    by rewrite (items_Permutation nodes). }
  rewrite Hperm, <- length_map_to_list. clear Hperm.
  assert (Hall : ∀ l : list (pykey * Node),
            Forall (λ e, key_eqb e.1 r = false) l →
            length (filter (λ e, key_eqb e.1 r = false) l) = length l).
  { intros l Hl. by rewrite filter_all. }
  destruct (key_of r) as [k|] eqn:Hk.
  - destruct (decide (k = KNaN)) as [->|Hnan].
    { apply Hall, Forall_forall. intros [k' n'] _. simpl.
      apply key_eqb_false. rewrite Hk.
      destruct (decide (k' = KNaN)) as [->|]; [by right|left; congruence]. }
    assert (Hgoal : match m !! k with
              | Some _ =>
                  S (length (filter (λ e, key_eqb e.1 r = false)
                               (map_to_list m)))
                  = length (map_to_list m)
              | None =>
                  length (filter (λ e, key_eqb e.1 r = false)
                            (map_to_list m))
                  = length (map_to_list m)
              end).
    { destruct (m !! k) as [n|] eqn:Hn.
      - rewrite <- (map_to_list_delete m k n Hn).
        rewrite filter_cons_False.
        2:{ simpl. intros Hf. apply key_eqb_false in Hf as [?|?]; congruence. }
        simpl. f_equal. apply Hall, Forall_forall.
        intros [k' n'] Hin%elem_of_map_to_list. simpl.
        apply key_eqb_false. left. rewrite Hk. intros [= ->].
        by rewrite lookup_delete_eq in Hin.
      - apply Hall, Forall_forall.
        intros [k' n'] Hin%elem_of_map_to_list. simpl.
        apply key_eqb_false. left. rewrite Hk. intros [= ->]. congruence. }
    by destruct k.
  - apply Hall, Forall_forall. intros [k' n'] _. simpl.
    apply key_eqb_false. left. by rewrite Hk.
Qed.

(** X6.  For a truthy requester, [peer_count] of [discover_peers] is the
    [total_nodes] that [list_nodes] reports in the same state, less one
    exactly when the requester itself is registered and is not the float
    [NaN], which differs from its own key. *)
Theorem discover_counts_all_but_requester
    (w : server) (req : request) (m : gmap string json) (r : json) :
  get_json req = JObj m → m !! "node_id" = Some r → truthy r = true →
  ∃ peers nodes w1 w2,
    discover_peers req w
    = (Ret (mkResponse 200 (Peers (length peers) peers)), w1)
    ∧ list_nodes w = (Ret (mkResponse 200 (Nodes (length nodes) nodes)), w2)
    ∧ length nodes = size (active_nodes w)
    ∧ match key_of r with
      | Some KNaN | None => length peers = length nodes
      | Some k =>
          match active_nodes w !! k with
          | Some _ => S (length peers) = length nodes
          | None => length peers = length nodes
          end
      end.
Proof.
  intros Hm Hid Ht.
  rewrite discover_cases, list_nodes_cases, Hm, (get_node_id _ _ Hid), Ht.
  do 4 eexists. split; [reflexivity|]. split; [reflexivity|].
  rewrite !length_snapshots, length_items. split; [done|].
  apply length_others.
Qed.

Lemma discover_counts_all_but_requester_witness :
  (∃ peers w1,
     discover_peers Examples.as_A Examples.server_AB
     = (Ret (mkResponse 200 (Peers (length peers) peers)), w1)
     ∧ length peers = 1%nat)
  ∧ (∃ peers w1,
       discover_peers Examples.as_C Examples.server_AB
       = (Ret (mkResponse 200 (Peers (length peers) peers)), w1)
       ∧ length peers = 2%nat).
Proof.
  split.
  - destruct (discover_counts_all_but_requester Examples.server_AB
                Examples.as_A (list_to_map [("node_id", JStr "A")])
                (JStr "A") eq_refl eq_refl eq_refl)
      as (peers & nodes & w1 & w2 & Hd & _ & Hn & Hcount).
    exists peers, w1. split; [exact Hd|].
    rewrite Hn in Hcount. vm_compute in Hcount.
    apply eq_add_S in Hcount. exact Hcount.
  - destruct (discover_counts_all_but_requester Examples.server_AB
                Examples.as_C (list_to_map [("node_id", JStr "C")])
                (JStr "C") eq_refl eq_refl eq_refl)
      as (peers & nodes & w1 & w2 & Hd & _ & Hn & Hcount).
    exists peers, w1. split; [exact Hd|].
    rewrite Hn in Hcount. vm_compute in Hcount. exact Hcount.
Defined.

(** X30.  The float [NaN], which [json.loads] accepts, is truthy and
    differs from every key, its own included: [discover_peers] answers
    the requester [NaN] with a snapshot of every record, the one filed
    under [NaN] among them. *)
Theorem discover_nan_excludes_nobody w req m :
  get_json req = JObj m → m !! "node_id" = Some (JFloat S754_nan) →
  ∃ peers w',
    discover_peers req w
    = (Ret (mkResponse 200 (Peers (length peers) peers)), w')
    ∧ length peers = size (active_nodes w)
    ∧ (∀ n, active_nodes w !! KNaN = Some n → ∃ t, to_dict_at n t ∈ peers).
Proof.
  intros Hm Hid.
  destruct (discover_truthy w req m _ Hm Hid eq_refl)
    as (sel & peers & w' & Heq & _ & Hnd & _ & Hsel & Hall & _).
  exists peers, w'. split; [exact Heq|]. split.
  - rewrite <- (Forall2_length _ _ _ Hall).
    unfold active_nodes. rewrite <- length_items.
    apply Permutation_length, NoDup_Permutation; [done|apply NoDup_items|].
    intros [k n]. rewrite Hsel, elem_of_items. unfold active_nodes.
    split; [tauto|]. intros Hk. split; [done|].
    destruct (decide (k = KNaN)) as [->|Hne]; [by right|].
    left. simpl. congruence.
  - intros n Hn.
    assert (Hin : (KNaN, n) ∈ sel) by (apply Hsel; auto).
    apply list_elem_of_lookup in Hin as [i Hi].
    destruct (Forall2_lookup_l _ _ _ _ _ Hall Hi) as (d & Hd & t & ->).
    exists t. by apply list_elem_of_lookup_2 in Hd.
Qed.

Lemma discover_nan_excludes_nobody_witness :
  ∃ peers w',
    discover_peers Examples.as_nan Examples.server_nan
    = (Ret (mkResponse 200 (Peers (length peers) peers)), w')
    ∧ length peers = 2%nat
    ∧ ∃ t, to_dict_at Examples.node_nan t ∈ peers.
Proof.
  destruct (discover_nan_excludes_nobody Examples.server_nan Examples.as_nan
              (list_to_map [("node_id", JFloat S754_nan)])
              eq_refl eq_refl)
    as (peers & w' & Heq & Hlen & Hown).
  exists peers, w'. split; [exact Heq|]. split.
  - rewrite Hlen. vm_compute. reflexivity.
  - apply Hown. vm_compute. reflexivity.
Defined.

(** X7.  [list_nodes] answers 200 with one snapshot for every record of
    the registry and nothing else, in the order in which the ids were
    first registered: [total_nodes] is the size of the registry, the
    snapshots pair off with [active_nodes.items()], every registered
    record has its snapshot in the list, and a record registered under a
    new id is listed after all that were there. *)
Theorem list_nodes_lists_every_record (w : server) :
  ∃ nodes w',
    list_nodes w = (Ret (mkResponse 200 (Nodes (length nodes) nodes)), w')
    ∧ length nodes = size (active_nodes w)
    ∧ Forall2 (λ e d, ∃ t, d = to_dict_at e.2 t)
              (Py.items (registry w)) nodes
    ∧ (∀ k n, active_nodes w !! k = Some n → ∃ t, to_dict_at n t ∈ nodes)
    ∧ (∀ (reg : request) (m : gmap string json) (id p : json) (k : pykey),
         get_json reg = JObj m →
         m !! "node_id" = Some id → m !! "port" = Some p →
         key_of id = Some k → active_nodes w !! k = None →
         ∃ n, Py.items (registry (register_node reg w).2)
              = Py.items (registry w) ++ [(k, n)]).
Proof.
  rewrite list_nodes_cases. do 2 eexists. split; [reflexivity|].
  rewrite length_snapshots, length_items. split; [done|].
  split; [apply snapshots_Forall2|]. split.
  - intros k n Hn. apply elem_of_items, list_elem_of_lookup in Hn.
    destruct Hn as [i Hi].
    destruct (Forall2_lookup_l _ _ _ _ _
                (snapshots_Forall2 (clock w) (ticks w)
                   (Py.items (registry w))) Hi)
      as (d & Hd & t & ->).
    exists t. by apply list_elem_of_lookup_2 in Hd.
  - intros reg m id p k Hm Hid Hp Hk Hnone.
    rewrite (register_cases_obj reg m w Hm), Hid, Hp. simpl. rewrite Hk.
    simpl. eexists. by apply items_setitem_new.
Qed.

(** X8.  A truthy [node_id] that cannot be hashed, a list or a dict, is
    met differently by each endpoint: [heartbeat] and [unregister_node]
    answer 500 and change nothing, [register_node] answers 500 and files
    no record, while [discover_peers] answers 200 and excludes nobody, so
    its [peer_count] is the size of the whole registry. *)
Theorem unhashable_id_at_each_endpoint
    (w : server) (req : request) (m : gmap string json) (id : json) :
  get_json req = JObj m → m !! "node_id" = Some id →
  truthy id = true → key_of id = None →
  heartbeat req w = (Ret (mkResponse 500 (FailureExn TypeError)), w)
  ∧ unregister_node req w = (Ret (mkResponse 500 (FailureExn TypeError)), w)
  ∧ (∃ peers w',
       discover_peers req w
       = (Ret (mkResponse 200 (Peers (length peers) peers)), w')
       ∧ length peers = size (active_nodes w))
  ∧ (is_Some (m !! "port") →
     ∃ w', register_node req w
           = (Ret (mkResponse 500 (FailureExn TypeError)), w')
           ∧ active_nodes w' = active_nodes w).
Proof.
  intros Hm Hid Ht Hk.
  rewrite heartbeat_cases, unregister_cases, discover_cases, Hm,
    (get_node_id _ _ Hid), Ht, Hk.
  split; [done|]. split; [done|]. split.
  - do 2 eexists. split; [reflexivity|]. rewrite length_snapshots.
    pose proof (length_others id (registry w)) as Hlen.
    by rewrite Hk in Hlen.
  - intros [p Hp]. rewrite (register_cases_obj req m w Hm), Hid, Hp. simpl.
    rewrite Hk. by eexists.
Qed.

Lemma unhashable_id_at_each_endpoint_witness :
  heartbeat Examples.as_list Examples.server_AB
  = (Ret (mkResponse 500 (FailureExn TypeError)), Examples.server_AB)
  ∧ (∃ peers w',
       discover_peers Examples.as_list Examples.server_AB
       = (Ret (mkResponse 200 (Peers (length peers) peers)), w')
       ∧ length peers = 2%nat)
  ∧ ∃ w', register_node Examples.as_list Examples.server_AB
          = (Ret (mkResponse 500 (FailureExn TypeError)), w')
          ∧ active_nodes w' = active_nodes Examples.server_AB.
Proof.
  destruct (unhashable_id_at_each_endpoint Examples.server_AB
              Examples.as_list
              (list_to_map [("node_id", JArr [JNum 1]); ("port", JNum 9004)])
              (JArr [JNum 1]) eq_refl eq_refl eq_refl eq_refl)
    as (Hhb & _ & (peers & w' & Hd & Hlen) & Hreg).
  split; [exact Hhb|]. split.
  - exists peers, w'. split; [exact Hd|]. rewrite Hlen. vm_compute.
    reflexivity.
  - apply Hreg. vm_compute. eauto.
Defined.

(** X9.  The service descriptor of [index], [health_check] and
    [list_nodes] agree on the number of active nodes in any one state,
    namely the size of the registry, and [index] leaves the registry as it
    was. *)
Theorem index_agrees_with_health (w : server) :
  ∃ info t nodes w1 w2 w3,
    index w = (Ret info, w1)
    ∧ health_check w = (Ret (mkResponse 200 (Health t (size (active_nodes w)))), w2)
    ∧ list_nodes w = (Ret (mkResponse 200 (Nodes (length nodes) nodes)), w3)
    ∧ service_active_nodes info = size (active_nodes w)
    ∧ length nodes = size (active_nodes w)
    ∧ service_status info = "online"
    ∧ active_nodes w1 = active_nodes w.
Proof.
  rewrite index_cases, list_nodes_cases. do 6 eexists.
  split; [reflexivity|]. split; [reflexivity|]. split; [reflexivity|].
  simpl. rewrite length_snapshots, length_items. done.
Qed.

Lemma NoDup_stale_nodes thr (nodes : Py.dict Node) :
  NoDup (stale_nodes thr nodes).
Proof.
  unfold stale_nodes.
  eapply sublist_NoDup; [apply (NoDup_items_fst nodes)|].
  apply fmap_sublist, sublist_filter.
Qed.

Lemma size_foldl_delete (ks : list pykey) (d : Py.dict Node) :
  NoDup ks → (∀ k, k ∈ ks → is_Some (Py.mapping d !! k)) →
  (size (Py.mapping (foldl (λ d k, Py.delitem k d) d ks)) + length ks
   = size (Py.mapping d))%nat.
Proof.
  intros Hnd. revert d.
  induction Hnd as [|k ks Hnotin Hnd IH]; intros d Hin; simpl; [lia|].
  assert (Hrest : ∀ k', k' ∈ ks →
            is_Some (Py.mapping (Py.delitem k d) !! k')).
  { intros k' Hk'. rewrite mapping_delitem, lookup_delete_ne;
      [apply Hin; by right|].
    intros ->. done. }
  specialize (IH (Py.delitem k d) Hrest).
  destruct (Hin k) as [n Hn]; [by left|].
  rewrite mapping_delitem, map_size_delete, Hn in IH. simpl in IH.
  assert (size (Py.mapping d) ≠ 0%nat); [|lia].
  apply map_size_ne_0_lookup_2 with k. by exists n.
Qed.

(** X10.  A pass of the reaper prints one line for each record it
    removes and for no other id, each once, after what was on the
    console; the registry shrinks by the number of lines printed. *)
Theorem reaper_prints_what_it_removes (w : server) :
  ∃ ks,
    console (cleanup_pass w).2 = console w ++ (CleanupRemoving <$> ks)
    ∧ NoDup ks
    ∧ (∀ k, k ∈ ks
            ↔ is_Some (active_nodes w !! k)
              ∧ active_nodes (cleanup_pass w).2 !! k = None)
    ∧ (size (active_nodes (cleanup_pass w).2) + length ks
       = size (active_nodes w))%nat.
Proof.
  exists (stale_nodes (clock w (ticks w) - timedelta HEARTBEAT_TIMEOUT)
                      (registry w)).
  split; [by rewrite cleanup_pass_cases|].
  split; [apply NoDup_stale_nodes|]. split.
  - intros k. rewrite cleanup_pass_lookup, elem_of_stale_nodes.
    unfold active_nodes. split.
    + intros (n & Hn & Hlt). rewrite Hn. split; [by exists n|].
      rewrite decide_True; [done|lia].
    + intros [[n Hn] Hgone]. rewrite Hn in Hgone. exists n. split; [done|].
      destruct (decide _); [lia|done].
  - rewrite cleanup_pass_cases. unfold active_nodes. simpl.
    apply size_foldl_delete.
    + apply NoDup_stale_nodes.
    + intros k (n & Hn & _)%elem_of_stale_nodes. by exists n.
Qed.




(** X12.  In every state the server reaches from an empty registry each
    record is filed under the key of its own [node_id], so no two
    records carry the same id. *)
Theorem reachable_ids_unique
    (ops : list op) (clk : nat → Z) (k1 k2 : pykey) (n1 n2 : Node) :
  let w := after ops (mkServer ∅ clk 0 []) in
  active_nodes w !! k1 = Some n1 → active_nodes w !! k2 = Some n2 →
  key_of (node_id n1) = Some k1
  ∧ (key_of (node_id n1) = key_of (node_id n2) → k1 = k2 ∧ n1 = n2).
Proof.
  intros w H1 H2. pose proof (reachable_well_keyed ops clk) as Hwk.
  split; [by apply Hwk|]. intros Heq.
  rewrite (Hwk _ _ H1), (Hwk _ _ H2) in Heq. injection Heq as ->.
  split; [done|]. fold w in H1, H2. congruence.
Qed.

Lemma reachable_ids_unique_witness :
  key_of (node_id Examples.node_A) = Some (KStr "A")
  ∧ (key_of (node_id Examples.node_A) = key_of (node_id Examples.node_A) →
     KStr "A" = KStr "A" ∧ Examples.node_A = Examples.node_A).
Proof.
  apply (reachable_ids_unique
           [Register Examples.register_A; Register Examples.register_B]
           Examples.seconds (KStr "A") (KStr "A")
           Examples.node_A Examples.node_A).
  - vm_compute. reflexivity.
  - vm_compute. reflexivity.
Defined.

(** *** The order of the registry *)



(** Every state the server reaches from an empty registry lists its
    keys: the order read is the order the dict holds. *)
Lemma exec_listed o w :
  Py.listed (registry w) → Py.listed (registry (exec o w).2).
Proof.
  intros Hl. rewrite exec_state. destruct o as [req|req|req|req| | |].
  - destruct (register_effect req w)
      as [(r & -> & _)|[(r & -> & _)|(r & k & n & -> & _)]]; try done.
    apply listed_setitem.
  - rewrite heartbeat_cases. by_cases. apply listed_setitem.
  - rewrite discover_cases. by_cases.
  - rewrite unregister_cases. by_cases. apply listed_delitem.
  - by rewrite list_nodes_cases.
  - done.
  - rewrite cleanup_pass_cases. simpl.
    induction (stale_nodes _ _) as [|k ks IH] using rev_ind; [done|].
    rewrite foldl_app. apply listed_delitem.
Qed.

Lemma reachable_listed ops clk :
  Py.listed (registry (after ops (mkServer ∅ clk 0 []))).
Proof.
  assert (Hgen : ∀ w, Py.listed (registry w) →
                      Py.listed (registry (after ops w))).
  { induction ops as [|o ops IH]; intros w Hl; [done|].
    rewrite after_cons. by apply IH, exec_listed. }
  apply Hgen, listed_empty.
Qed.



(** *** Timestamps along a run *)

Lemma after_clock ops w : clock (after ops w) = clock w.
Proof.
  revert w. induction ops as [|o ops IH]; intros w; [done|].
  by rewrite after_cons, IH, exec_clock.
Qed.

Lemma after_ticks ops w : (ticks w ≤ ticks (after ops w))%nat.
Proof.
  revert w. induction ops as [|o ops IH]; intros w; [done|].
  rewrite after_cons. pose proof (exec_ticks o w). specialize (IH (exec o w).2).
  lia.
Qed.

(** A state with the same clock, no fewer ticks and no record of its own
    is stamped if the one it comes from is. *)
Lemma stamped_subset w w' :
  clock w' = clock w → (ticks w ≤ ticks w')%nat →
  (∀ k n, active_nodes w' !! k = Some n → active_nodes w !! k = Some n) →
  stamped w → stamped w'.
Proof.
  intros Hc Ht Hsub Hst k n Hn.
  destruct (Hst k n (Hsub k n Hn)) as (i & j & Hi & Hj & Hlh & Hreg).
  exists i, j. rewrite Hc. split_and!; [lia|lia|done|done].
Qed.

Lemma refreshed_subset w w' :
  (∀ k n, active_nodes w' !! k = Some n → active_nodes w !! k = Some n) →
  refreshed w w'.
Proof. intros Hsub k n' Hn'. left. exists n'. split; [by apply Hsub|done]. Qed.

(** The state after [register_node], in the two shapes it can take. *)
Lemma register_state req w :
  (clock (register_node req w).2 = clock w
   ∧ (ticks w ≤ ticks (register_node req w).2)%nat
   ∧ active_nodes (register_node req w).2 = active_nodes w)
  ∨ (∃ k n,
       (register_node req w).2
       = mkServer (Py.setitem k n (registry w)) (clock w)
                  (S (S (S (ticks w)))) (console w)
       ∧ last_heartbeat n = clock w (ticks w)
       ∧ registered_at n = clock w (S (ticks w))).
Proof.
  destruct (get_json req) as [|b|z|f|s|l|m] eqn:Hd.
  7: { rewrite (register_cases_obj req m w Hd).
       destruct (m !! "node_id") as [id|]; [|left; done].
       destruct (m !! "port") as [p|]; [|left; done].
       simpl. destruct (key_of id) as [k|].
       - right. by do 2 eexists.
       - left. simpl. repeat split. lia. }
  all: left; destruct (register_cases_other req w) as (r & -> & _);
    [congruence|done].
Qed.

Lemma exec_stamped o w : stamped w → stamped (exec o w).2.
Proof.
  intros Hst. rewrite exec_state. destruct o as [req|req|req|req| | |].
  - destruct (register_state req w)
      as [(Hc & Ht & Hn)|(k & n & -> & Hlh & Hreg)].
    + apply (stamped_subset w); [done|done| |done]. by rewrite Hn.
    + intros k' n'. unfold active_nodes. simpl.
      rewrite lookup_insert. case_decide.
      * intros [= <-]. exists (ticks w), (S (ticks w)).
        split_and!; [lia|lia|done|done].
      * intros Hn'. destruct (Hst k' n' Hn') as (i & j & ? & ? & ? & ?).
        exists i, j. split_and!; [lia|lia|done|done].
  - rewrite heartbeat_cases.
    destruct (Py.get _ _ _) as [id|e]; [|done].
    destruct (truthy id); [|done].
    destruct (key_of id) as [k|]; [|done].
    destruct (active_nodes w !! k) as [n|] eqn:Hn; [|done].
    intros k' n'. unfold active_nodes. simpl.
      rewrite lookup_insert. case_decide.
    + intros [= <-]. destruct (Hst k n Hn) as (i & j & ? & ? & ? & ?).
      exists (ticks w), j. split_and!; [lia|lia|done|done].
    + intros Hn'. destruct (Hst k' n' Hn') as (i & j & ? & ? & ? & ?).
      exists i, j. split_and!; [lia|lia|done|done].
  - rewrite discover_cases.
    destruct (Py.get _ _ _) as [id|e]; [|done].
    destruct (truthy id); [|done].
    apply (stamped_subset w); simpl; [done|lia|done|done].
  - rewrite unregister_cases.
    destruct (Py.get _ _ _) as [id|e]; [|done].
    destruct (truthy id); [|done].
    destruct (key_of id) as [k|]; [|done].
    destruct (active_nodes w !! k) as [n|] eqn:Hn; [|done].
    apply (stamped_subset w); try done.
    intros k' n'. unfold active_nodes. simpl.
    by intros [_ ?]%lookup_delete_Some.
  - rewrite list_nodes_cases.
    apply (stamped_subset w); simpl; [done|lia|done|done].
  - apply (stamped_subset w); simpl; [done|lia|done|done].
  - apply (stamped_subset w).
    + by rewrite cleanup_pass_cases.
    + rewrite cleanup_pass_cases. simpl. lia.
    + intros k n. rewrite cleanup_pass_lookup.
      destruct (active_nodes w !! k); [|done]. by destruct (decide _).
    + done.
Qed.

Lemma exec_refreshed o w : refreshed w (exec o w).2.
Proof.
  rewrite exec_state. destruct o as [req|req|req|req| | |].
  - destruct (register_state req w)
      as [(Hc & Ht & Hn)|(k & n & -> & Hlh & Hreg)].
    + apply refreshed_subset. by rewrite Hn.
    + intros k' n'. unfold active_nodes. simpl.
      rewrite lookup_insert. case_decide.
      * intros [= <-]. right. exists (ticks w). split; [lia|done].
      * intros Hn'. left. by exists n'.
  - rewrite heartbeat_cases.
    destruct (Py.get _ _ _) as [id|e]; [|by apply refreshed_subset].
    destruct (truthy id); [|by apply refreshed_subset].
    destruct (key_of id) as [k|]; [|by apply refreshed_subset].
    destruct (active_nodes w !! k) as [n|] eqn:Hn;
      [|by apply refreshed_subset].
    intros k' n'. unfold active_nodes. simpl.
      rewrite lookup_insert. case_decide.
    + intros [= <-]. right. exists (ticks w). split; [lia|done].
    + intros Hn'. left. by exists n'.
  - apply refreshed_subset. rewrite discover_cases. by_cases.
  - apply refreshed_subset. rewrite unregister_cases.
    destruct (Py.get _ _ _) as [id|e]; [|done].
    destruct (truthy id); [|done].
    destruct (key_of id) as [k|]; [|done].
    destruct (active_nodes w !! k) as [n|] eqn:Hn; [|done].
    intros k' n'. unfold active_nodes. simpl.
    by intros [_ ?]%lookup_delete_Some.
  - apply refreshed_subset. by rewrite list_nodes_cases.
  - by apply refreshed_subset.
  - apply refreshed_subset. intros k n. rewrite cleanup_pass_lookup.
    destruct (active_nodes w !! k); [|done]. by destruct (decide _).
Qed.

Lemma refreshed_trans w w1 w2 :
  clock w1 = clock w → (ticks w ≤ ticks w1)%nat → (ticks w1 ≤ ticks w2)%nat →
  refreshed w w1 → refreshed w1 w2 → refreshed w w2.
Proof.
  intros Hc Ht1 Ht2 H1 H2 k n2 Hn2.
  destruct (H2 k n2 Hn2) as [(n1 & Hn1 & Heq)|(i & Hi & Heq)].
  - destruct (H1 k n1 Hn1) as [(n & Hn & Heq')|(i & Hi & Heq')].
    + left. exists n. split; [done|congruence].
    + right. exists i. split; [lia|congruence].
  - right. exists i. split; [lia|]. by rewrite <- Hc.
Qed.

Lemma after_stamped ops w : stamped w → stamped (after ops w).
Proof.
  revert w. induction ops as [|o ops IH]; intros w Hst; [done|].
  rewrite after_cons. by apply IH, exec_stamped.
Qed.

Lemma after_refreshed ops w : refreshed w (after ops w).
Proof.
  revert w. induction ops as [|o ops IH]; intros w.
  - by apply refreshed_subset.
  - rewrite after_cons.
    apply (refreshed_trans w (exec o w).2).
    + apply exec_clock.
    + apply exec_ticks.
    + apply after_ticks.
    + apply exec_refreshed.
    + apply IH.
Qed.

Lemma stamped_empty clk : stamped (mkServer ∅ clk 0 []).
Proof. intros k n. unfold active_nodes. simpl. by rewrite lookup_empty. Qed.

(** X13.  With a clock that does not go backwards, the [last_heartbeat]
    filed under a node id never decreases along a run of the server,
    whatever the run does in between: heartbeats, re-registrations,
    even a removal followed by a new registration. *)
Theorem last_heartbeat_never_decreases
    (clk : nat → Z) (before later : list op) (k : pykey) (n n' : Node) :
  monotone clk →
  let w := after before (mkServer ∅ clk 0 []) in
  active_nodes w !! k = Some n →
  active_nodes (after later w) !! k = Some n' →
  last_heartbeat n ≤ last_heartbeat n'.
Proof.
  intros Hmono w Hn Hn'.
  assert (Hclk : clock w = clk) by (unfold w; by rewrite after_clock).
  destruct (after_stamped before _ (stamped_empty clk) k n Hn)
    as (i & _ & Hi & _ & Hlh & _). fold w in Hi, Hlh.
  destruct (after_refreshed later w k n' Hn')
    as [(n0 & Hn0 & Heq)|(i' & Hi' & Heq)].
  - rewrite Hn in Hn0. injection Hn0 as <-. lia.
  - rewrite Hlh, Heq, Hclk. apply Hmono. lia.
Qed.

Lemma last_heartbeat_never_decreases_witness :
  last_heartbeat Examples.node_A
  ≤ last_heartbeat
      (mkNode (JStr "A") "10.0.0.1" (JNum 9001) JNull 6000000 1000000).
Proof.
  apply (last_heartbeat_never_decreases Examples.seconds
           [Register Examples.register_A; Register Examples.register_B]
           [Heartbeat Examples.as_A] (KStr "A")).
  - intros i j Hij. unfold Examples.seconds. lia.
  - vm_compute. reflexivity.
  - vm_compute. reflexivity.
Defined.

Lemma elem_of_snapshots clk i l d :
  d ∈ snapshots clk i l →
  ∃ e j, e ∈ l ∧ d = to_dict_at e.2 (clk (j + i)%nat).
Proof.
  revert i. induction l as [|e r IH]; intros i; simpl.
  - by intros ?%elem_of_nil.
  - intros [->|Hin]%elem_of_cons.
    + exists e, 0%nat. split; [by left|done].
    + destruct (IH _ Hin) as (e' & j & He' & ->).
      exists e', (S j). split; [by right|].
      by replace (S j + i)%nat with (j + S i)%nat by lia.
Qed.

(** X14.  With a clock that does not go backwards, every snapshot that
    [list_nodes] or [discover_peers] hands out from a state the server
    has reached reports an uptime that is not negative. *)
Theorem snapshots_report_nonnegative_uptime
    (clk : nat → Z) (ops : list op) (req : request) (d : NodeDict) :
  monotone clk →
  let w := after ops (mkServer ∅ clk 0 []) in
  (∃ n nodes, (list_nodes w).1 = Ret (mkResponse 200 (Nodes n nodes))
              ∧ d ∈ nodes)
  ∨ (∃ n peers, (discover_peers req w).1 = Ret (mkResponse 200 (Peers n peers))
                ∧ d ∈ peers) →
  0 ≤ d_uptime_seconds d.
Proof.
  intros Hmono w Hd.
  assert (Hclk : clock w = clk) by (unfold w; by rewrite after_clock).
  assert (Hst : stamped w) by apply after_stamped, stamped_empty.
  assert (Hin : ∃ l, d ∈ snapshots (clock w) (ticks w) l
                     ∧ ∀ e, e ∈ l → active_nodes w !! e.1 = Some e.2).
  { destruct Hd as [(n & nodes & Heq & Hd)|(n & peers & Heq & Hd)].
    - rewrite list_nodes_cases in Heq. simpl in Heq. injection Heq as _ <-.
      eexists. split; [exact Hd|]. intros [k x]. apply elem_of_items.
    - rewrite discover_cases in Heq.
      destruct (Py.get _ _ _) as [id|e]; [|simpl in Heq; congruence].
      destruct (truthy id); simpl in Heq; [|congruence].
      injection Heq as _ <-. eexists. split; [exact Hd|].
      intros [k x] [_ Hx]%list_elem_of_filter.
      by apply elem_of_items. }
  destruct Hin as (l & Hdl & Hl).
  apply elem_of_snapshots in Hdl as (e & j & He & ->).
  destruct (Hst _ _ (Hl e He)) as (i1 & i2 & Hi1 & Hi2 & Hlh & Hreg).
  simpl. rewrite Hreg, Hclk.
  assert (clk i2 ≤ clk (j + ticks w)%nat) by (apply Hmono; lia). lia.
Qed.

Lemma snapshots_report_nonnegative_uptime_witness :
  0 ≤ d_uptime_seconds
        (mkNodeDict (JStr "A") "10.0.0.1" (JNum 9001) JNull 0 5000000).
Proof.
  apply (snapshots_report_nonnegative_uptime Examples.seconds
           [Register Examples.register_A; Register Examples.register_B]
           Examples.as_B).
  - intros i j Hij. unfold Examples.seconds. lia.
  - left. eexists _, _. split.
    + vm_compute. reflexivity.
    + left.
Defined.

End RegistryMore.

(** ** Further properties of the mesh node *)

Module AgentMore.
Import Py PyFacts DictFacts MeshNode Agent.

Section WithWire.
Context {W : Wire}.

Ltac unfold_m :=
  unfold try_except, bind, ret, lift, gets, modify, print, emit,
    datetime_now, moved;
  cbn [node_id server_url listen_port peers running clock ticks trace
       fst snd].

Ltac tidy :=
  cbn [node_id server_url listen_port peers running clock ticks trace
       fst snd Nat.add app];
  rewrite <- ?app_assoc;
  cbn [app].


Ltac not_in_list :=
  repeat (apply not_elem_of_cons; split; [discriminate|]);
  apply not_elem_of_nil.

(** Running the node one effect at a time. *)
Lemma moved_moved (a : mesh_node) n evs m evs' :
  moved (moved a n evs) m evs' = moved a (m + n) (evs ++ evs').
Proof.
  unfold moved. cbn [node_id server_url listen_port peers running clock
                     ticks trace].
  f_equal; [lia|by rewrite app_assoc].
Qed.

Lemma moved_0_nil (a : mesh_node) : moved a 0 [] = a.
Proof. destruct a. unfold moved. simpl. by rewrite app_nil_r. Qed.

Lemma run_emit {A} (e : event) (k : M mesh_node A) (a : mesh_node) :
  (emit e ;; k) a = k (moved a 0 [e]).
Proof. reflexivity. Qed.

Lemma run_print {A} (l : line) (k : M mesh_node A) (a : mesh_node) :
  (print l ;; k) a = k (moved a 0 [Print l]).
Proof. reflexivity. Qed.

Lemma run_lift_ret {A B} (v : A) (k : A → M mesh_node B) (a : mesh_node) :
  (x <- lift (Ret v) ;; k x) a = k v a.
Proof. reflexivity. Qed.

Lemma run_lift_raise {A B} e (k : A → M mesh_node B) (a : mesh_node) :
  (x <- lift (Raise e) ;; k x) a = (Raise e, a).
Proof. reflexivity. Qed.

Lemma run_gets {A B} (f : mesh_node → A) (k : A → M mesh_node B)
    (a : mesh_node) :
  (x <- gets f ;; k x) a = k (f a) a.
Proof. reflexivity. Qed.

Lemma run_now {B} (k : Z → M mesh_node B) (a : mesh_node) :
  (x <- datetime_now ;; k x) a = k (clock a (ticks a)) (moved a 1 []).
Proof.
  unfold bind, datetime_now, moved. simpl. by rewrite app_nil_r.
Qed.

Ltac run :=
  repeat first
    [ rewrite run_emit | rewrite run_print | rewrite run_lift_ret
    | rewrite run_lift_raise | rewrite run_gets | rewrite run_now
    | rewrite moved_moved ];
  cbn [moved node_id server_url listen_port peers running clock ticks
       Nat.add app].

(** [handle_peer_connection] spelled out by cases. *)
Lemma handler_cases (sock : client_socket) (b : mesh_node) :
  handle_peer_connection sock b =
  (Ret tt,
   match cs_recv sock 4096 with
   | Raise e =>
       moved b 0 [SocketRecv 4096; Print (HandlerError e); SocketClose]
   | Ret data =>
       if nonempty data then
         match loads data with
         | Raise e =>
             moved b 0 [SocketRecv 4096; Print (HandlerError e); SocketClose]
         | Ret (JObj m) =>
             let reply := dumps (ack (clock b (ticks b))) in
             match cs_send sock reply with
             | Ret _ =>
                 moved b 1
                   [SocketRecv 4096;
                    Print (MessageFrom (default (JStr "Unknown") (m !! "source")));
                    Print (MessageType (default (JStr "unknown") (m !! "type")));
                    Print (MessageContent (default (JStr "N/A") (m !! "payload")));
                    SocketSend reply; SocketClose]
             | Raise e =>
                 moved b 1
                   [SocketRecv 4096;
                    Print (MessageFrom (default (JStr "Unknown") (m !! "source")));
                    Print (MessageType (default (JStr "unknown") (m !! "type")));
                    Print (MessageContent (default (JStr "N/A") (m !! "payload")));
                    SocketSend reply; Print (HandlerError e); SocketClose]
             end
         | Ret _ =>
             moved b 0
               [SocketRecv 4096; Print (HandlerError AttributeError);
                SocketClose]
         end
       else moved b 0 [SocketRecv 4096; SocketClose]
   end).
Proof.
  unfold handle_peer_connection. unfold_m.
  destruct (cs_recv sock 4096) as [data|e]; tidy; [|done].
  destruct (nonempty data); tidy; [|done].
  destruct (loads data) as [[|x|z|f|s|l|m]|e]; cbn [Py.get]; tidy; try done.
  destruct (cs_send sock _) as [[]|e]; tidy; done.
Qed.

(** X15.  [handle_peer_connection] never lets an exception out and always
    closes the socket: whatever the socket yields, it returns after a
    trace that begins with the one bounded read and ends with the one
    close, and it leaves the cache, the running flag and the identity of
    the node alone. *)
Theorem handler_always_closes (sock : client_socket) (b : mesh_node) :
  ∃ n evs,
    handle_peer_connection sock b
    = (Ret tt, moved b n (SocketRecv 4096 :: (evs ++ [SocketClose])))
    ∧ (SocketClose ∉ evs)
    ∧ (n ≤ 1)%nat.
Proof.
  rewrite handler_cases.
  destruct (cs_recv sock 4096) as [data|e].
  2: { exists 0%nat, [Print (HandlerError e)].
       split; [done|]. split; [not_in_list|lia]. }
  destruct (nonempty data).
  2: { exists 0%nat, []. split; [done|]. split; [not_in_list|lia]. }
  destruct (loads data) as [[|x|z|f|s|l|m]|e].
  7: { cbn zeta. destruct (cs_send sock _) as [[]|e].
       - eexists 1%nat, [_; _; _; _]. split; [done|].
         split; [not_in_list|lia].
       - eexists 1%nat, [_; _; _; _; _]. split; [done|].
         split; [not_in_list|lia]. }
  all: eexists 0%nat, [_]; (split; [done|]); (split; [not_in_list|lia]).
Qed.



Lemma peer_key_inv (peer : json) k :
  peer_key peer = Ret k →
  ∃ id, getitem peer "node_id" = Ret id ∧ hash id = Ret k.
Proof.
  unfold peer_key. destruct (getitem peer "node_id") as [id|e]; [|done].
  intros Hk. by exists id.
Qed.


(** [merge_peer] on a record whose id is new: it is filed first and read
    for its address after. *)
Lemma merge_peer_new (peer : json) (a : mesh_node) k :
  peer_key peer = Ret k → peers a !! k = None →
  merge_peer peer a =
  match getitem peer "ip_address" with
  | Raise e => (Raise e, set_peers (Py.setitem k peer) a)
  | Ret ip =>
      match getitem peer "port" with
      | Raise e => (Raise e, set_peers (Py.setitem k peer) a)
      | Ret p =>
          match getitem peer "node_id" with
          | Ret id =>
              (Ret tt,
               moved (set_peers (Py.setitem k peer) a) 0
                     [Print (PeerAdded id ip p)])
          | Raise e => (Raise e, a)
          end
      end
  end.
Proof.
  intros (id & Hid & Hk)%peer_key_inv Hnone. unfold merge_peer.
  rewrite Hid, run_lift_ret, Hk, run_lift_ret, run_gets, Hnone.
  unfold bind at 1. unfold modify.
  destruct (getitem peer "ip_address") as [ip|e]; [|done].
  rewrite run_lift_ret.
  destruct (getitem peer "port") as [p|e]; [|done].
  by rewrite run_lift_ret.
Qed.

(** X18.  The merge files a new record before it reads its address: a
    record of the answer that has a fresh id but no [ip_address] or no
    [port] is cached all the same, the round ends there with a discovery
    error, and the records after it in the answer are not looked at. *)
Theorem incomplete_record_is_cached
    (a : mesh_node) (response : http_response) (data peer : json)
    (rest : list json) (k : pykey) (e : exn) :
  status_code response = 200 → resp_json response = Ret data →
  getitem data "peers" = Ret (JArr (peer :: rest)) →
  peer_key peer = Ret k → peers a !! k = None →
  getitem peer "ip_address" = Raise e
  ∨ ((∃ ip, getitem peer "ip_address" = Ret ip)
     ∧ getitem peer "port" = Raise e) →
  ∃ a',
    discover_round (Ret response) a = (Ret tt, a')
    ∧ peers a' = <[k := peer]> (peers a)
    ∧ trace a'
      = trace a ++ [Print (Discovered (S (length rest)));
                    Print (DiscoveryError e)].
Proof.
  intros Hst Hjson Hpeers Hk Hnone Hbad.
  unfold discover_round, try_except. rewrite run_lift_ret, Hst.
  change (200 =? 200) with true. cbv iota.
  rewrite Hjson, run_lift_ret, Hpeers, run_lift_ret.
  cbn [truthy length Nat.eqb negb len iter].
  rewrite run_lift_ret, run_print, run_lift_ret.
  cbn [for_each]. unfold bind at 1.
  rewrite (merge_peer_new peer _ k Hk) by done.
  destruct Hbad as [Hip|([ip Hip] & Hport)].
  - rewrite Hip. eexists. split; [reflexivity|].
    cbn [print emit snd set_peers moved peers cache trace Py.mapping Py.setitem].
    split; [done|]. by rewrite <- app_assoc.
  - rewrite Hip, Hport. eexists. split; [reflexivity|].
    cbn [print emit snd set_peers moved peers cache trace Py.mapping Py.setitem].
    split; [done|]. by rewrite <- app_assoc.
Qed.





(** *** [list_peers] *)

Lemma getitem_dict (v : json) s x :
  getitem v s = Ret x → ∃ m, v = JObj m.
Proof. destruct v; try done. eauto. Qed.

Lemma list_entries_returns (items : list (pykey * json)) :
  (list_entries items).2 = Ret tt
  ↔ Forall (λ e, ∃ ip p, getitem e.2 "ip_address" = Ret ip
                         ∧ getitem e.2 "port" = Ret p) items.
Proof.
  induction items as [|[k peer] r IH]; [done|].
  cbn [list_entries]. rewrite Forall_cons. cbn [snd].
  destruct (getitem peer "ip_address") as [ip|e] eqn:Hip.
  2: { split; [done|]. intros [(? & ? & ? & _) _]. discriminate. }
  destruct (getitem peer "port") as [p|e] eqn:Hp.
  2: { split; [done|]. intros [(? & ? & _ & ?) _]. discriminate. }
  destruct (getitem_dict _ _ _ Hip) as [m ->]. cbn [Py.get snd].
  rewrite IH. split; [|tauto]. intros Hr. split; [eauto|done].
Qed.

Lemma list_peers_returns (a : mesh_node) :
  (list_peers a).2 = Ret tt
  ↔ ∀ k v, peers a !! k = Some v →
           ∃ ip p, getitem v "ip_address" = Ret ip
                   ∧ getitem v "port" = Ret p.
Proof.
  unfold list_peers. destruct (Nat.eqb_spec (size (peers a)) 0) as [Hz|Hnz].
  - apply map_size_empty_inv in Hz. rewrite Hz. split; [|done].
    intros _ k v. by rewrite lookup_empty.
  - cbn [snd]. rewrite list_entries_returns, Forall_forall. split.
    + intros Hall k v Hkv. apply (Hall (k, v)). by apply elem_of_items.
    + intros Hall [k v] Hin%elem_of_items. by apply (Hall k v).
Qed.


(** X21.  A discovery round can leave the cache in a state [list_peers]
    cannot print: after a round whose answer starts with a record that
    has a fresh id and no [ip_address], [list_peers] raises. *)
Theorem list_peers_raises_after_incomplete_record
    (a : mesh_node) (response : http_response) (data peer : json)
    (rest : list json) (k : pykey) (e : exn) :
  status_code response = 200 → resp_json response = Ret data →
  getitem data "peers" = Ret (JArr (peer :: rest)) →
  peer_key peer = Ret k → peers a !! k = None →
  getitem peer "ip_address" = Raise e →
  ∃ e', (list_peers (discover_round (Ret response) a).2).2 = Raise e'.
Proof.
  intros Hst Hjson Hpeers Hk Hnone Hip.
  assert (Hcached : peers (discover_round (Ret response) a).2 !! k
                    = Some peer).
  { unfold discover_round, try_except. rewrite run_lift_ret, Hst.
    change (200 =? 200) with true. cbv iota.
    rewrite Hjson, run_lift_ret, Hpeers, run_lift_ret.
    cbn [truthy length Nat.eqb negb len iter].
    rewrite run_lift_ret, run_print, run_lift_ret.
    cbn [for_each]. unfold bind at 1.
    rewrite (merge_peer_new peer _ k Hk) by done. rewrite Hip.
    cbn [print emit snd set_peers moved peers cache Py.mapping Py.setitem]. apply lookup_insert_eq. }
  destruct (list_peers _).2 as [[]|e'] eqn:Hlist; [|by exists e'].
  pose proof (proj1 (list_peers_returns _) Hlist) as Hall.
  destruct (Hall k peer Hcached) as (ip & p & Hip' & _). congruence.
Qed.

(** *** The life cycle *)

Lemma noted_noted (s : process) r1 n1 r2 n2 :
  noted (noted s r1 n1) r2 n2 = noted s (r1 ++ r2) (n1 ++ n2).
Proof.
  unfold noted. cbn [self http posted printed started server_socket].
  by rewrite !app_assoc.
Qed.

Lemma step_say {A} (n : notice) (k : M process A) (s : process) :
  (say n ;; k) s = k (noted s [] [n]).
Proof.
  unfold bind, say, noted. cbn. by rewrite app_nil_r.
Qed.

Lemma step_post {A} path body (k : http_response → M process A)
    (s : process) :
  (r <- requests_post path body ;; k r) s
  = match http s (server_url (self s) ++ path)%string body with
    | Ret r => k r (noted s [((server_url (self s) ++ path)%string, body)] [])
    | Raise e =>
        (Raise e,
         noted s [((server_url (self s) ++ path)%string, body)] [])
    end.
Proof.
  unfold bind, requests_post, noted. cbn. rewrite app_nil_r.
  by destruct (http s _ body).
Qed.

Lemma step_gets {S A B} (f : S → A) (k : A → M S B) (s : S) :
  (x <- gets f ;; k x) s = k (f s) s.
Proof. reflexivity. Qed.

Lemma step_lift_ret {S A B} (v : A) (k : A → M S B) (s : S) :
  (x <- lift (Ret v) ;; k x) s = k v s.
Proof. reflexivity. Qed.

Lemma step_lift_raise {S A B} e (k : A → M S B) (s : S) :
  (x <- lift (Raise e) ;; k x) s = (Raise e, s).
Proof. reflexivity. Qed.

Ltac steps :=
  repeat first
    [ rewrite step_say | rewrite step_gets | rewrite step_lift_ret
    | rewrite step_lift_raise | rewrite noted_noted ];
  cbn [noted self http posted printed started server_socket app].




(** X24.  A turn of the heartbeat loop never lets an exception out and
    makes exactly one request, to [/heartbeat] with the node's id,
    whatever the registry answers: after a 404 it does not register
    again.  It prints one line, and leaves the cache, the running flag
    and the started threads as they were. *)
Theorem heartbeat_turn_only_heartbeats (s : process) :
  ∃ s' line,
    heartbeat_turn s = (Ret tt, s')
    ∧ posted s'
      = posted s ++ [((server_url (self s) ++ "/heartbeat")%string,
                      id_body (self s))]
    ∧ printed s' = printed s ++ [line]
    ∧ peers (self s') = peers (self s)
    ∧ running (self s') = running (self s)
    ∧ started s' = started s
    ∧ ((∃ now, line = HeartbeatSent now)
       ↔ ∃ response,
           http s (server_url (self s) ++ "/heartbeat")%string
                  (id_body (self s)) = Ret response
           ∧ status_code response = 200).
Proof.
  unfold heartbeat_turn, try_except. rewrite step_gets, step_post.
  destruct (http s _ _) as [response|e] eqn:Hpost.
  2: { steps. do 2 eexists. split; [reflexivity|].
       cbn [noted self posted printed started]. rewrite app_nil_r.
       repeat split; try done.
       - intros [? ?]. discriminate.
       - intros (? & ? & _). discriminate. }
  destruct (Z.eqb_spec (status_code response) 200) as [Hst|Hst].
  - unfold bind at 1, with_self, datetime_now, say.
    cbn [fst snd noted self http posted printed started server_socket].
    do 2 eexists. split; [reflexivity|].
    cbn [noted self posted printed started peers running].
    rewrite !app_nil_r. repeat split; try done.
    + intros _. by exists response.
    + intros _. by eexists.
  - destruct (resp_json response) as [answer|e]; steps;
      do 2 eexists; (split; [reflexivity|]);
      cbn [noted self posted printed started]; rewrite ?app_nil_r;
      repeat split; try done.
    + intros [? ?]. discriminate.
    + intros (? & [= <-] & ?). done.
    + intros [? ?]. discriminate.
    + intros (? & [= <-] & ?). done.
Qed.

(** X25.  [stop] never lets an exception out, whatever becomes of its
    request: it clears the running flag, makes exactly one request, to
    [/unregister] with the node's id, closes the listening socket if
    there is one, and prints its last line; the cache is left as it is,
    and the line that the node was unregistered is printed exactly when
    the request came back, with whatever status. *)
Theorem stop_always_completes (s : process) :
  ∃ s',
    stop s = (Ret tt, s')
    ∧ running (self s') = false
    ∧ peers (self s') = peers (self s)
    ∧ posted s'
      = posted s ++ [((server_url (self s) ++ "/unregister")%string,
                      id_body (self s))]
    ∧ server_socket s'
      = match server_socket s with Some _ => Some false | None => None end
    ∧ printed s'
      = printed s ++ [ShuttingDown]
        ++ match http s (server_url (self s) ++ "/unregister")%string
                        (id_body (self s)) with
           | Ret _ => [UnregisteredFromServer]
           | Raise _ => []
           end
        ++ [Goodbye].
Proof.
  unfold stop. rewrite step_say. unfold bind at 1, set_running, with_self.
  cbn [modify fst snd noted self http posted printed started server_socket].
  unfold bind at 1, try_except. rewrite step_gets, step_post.
  cbn [self http server_url node_id id_body].
  destruct (http s _ _) as [response|e]; steps;
    (eexists; split; [reflexivity|]);
    cbn [noted self running peers posted printed server_socket];
    unfold id_body; cbn [node_id];
    rewrite ?app_nil_r, <- ?app_assoc; cbn [app]; done.
Qed.

Lemma discover_round_returns (post : outcome http_response) (a : mesh_node) :
  (discover_round post a).1 = Ret tt.
Proof.
  unfold discover_round, try_except.
  match goal with
  | |- context [match ?c with _ => _ end] => destruct c as [[[]|e] a']
  end; reflexivity.
Qed.

Lemma merge_peer_running (peer : json) (a : mesh_node) :
  running (merge_peer peer a).2 = running a.
Proof.
  unfold merge_peer, bind, ret, lift, gets, modify, print, emit. simpl.
  destruct (getitem peer "node_id") as [peer_id|e]; [|done].
  destruct (hash peer_id) as [k|e]; [|done].
  destruct (peers a !! k); [done|]. simpl.
  destruct (getitem peer "ip_address"); [|done].
  destruct (getitem peer "port"); done.
Qed.

Lemma for_each_running (items : list json) (a : mesh_node) :
  running (for_each items merge_peer a).2 = running a.
Proof.
  revert a. induction items as [|x r IH]; intros a; [done|].
  rewrite for_each_cons_state. pose proof (merge_peer_running x a) as Hx.
  destruct (merge_peer x a) as [[[]|e] a1]; simpl in Hx; [|done].
  by rewrite IH.
Qed.

Lemma discover_round_running (post : outcome http_response) (a : mesh_node) :
  running (discover_round post a).2 = running a.
Proof.
  unfold discover_round, try_except, bind, lift, print, emit, ret.
  destruct post as [response|e]; simpl; [|done].
  destruct (status_code response =? 200); simpl; [|done].
  destruct (resp_json response) as [data|e]; simpl; [|done].
  destruct (getitem data "peers") as [new_peers|e]; simpl; [|done].
  destruct (truthy new_peers); simpl; [|done].
  destruct new_peers as [|b|z|f|s|l|m]; simpl; try done.
  all: match goal with
       | |- context [for_each ?l merge_peer ?a0] =>
           pose proof (for_each_running l a0) as Hrun;
           by destruct (for_each l merge_peer a0) as [[[]|e] a1]
       end.
Qed.

(** X26.  A turn of the discovery loop never lets an exception out,
    whatever the registry answers or the request raises; it makes exactly
    one request, to [/discover] with the node's id, keeps every cached
    entry as it was, and leaves the running flag and the started threads
    alone. *)
Theorem discovery_turn_only_discovers (s : process) :
  ∃ s',
    discovery_turn s = (Ret tt, s')
    ∧ posted s'
      = posted s ++ [((server_url (self s) ++ "/discover")%string,
                      id_body (self s))]
    ∧ (∀ k v, peers (self s) !! k = Some v → peers (self s') !! k = Some v)
    ∧ running (self s') = running (self s)
    ∧ started s' = started s.
Proof.
  unfold discovery_turn, with_self.
  cbn [self http posted printed started server_socket].
  eexists. split.
  - rewrite discover_round_returns. reflexivity.
  - cbn [self posted printed started]. split; [done|]. split.
    + intros k v Hkv.
      by apply (proj1 (discover_round_effect _ (self s))).
    + split; [apply discover_round_running|done].
Qed.

End WithWire.

#[local] Existing Instance Examples.loopback.

Lemma incomplete_record_is_cached_witness :
  ∃ a',
    discover_round (Ret Examples.broken_answer) Examples.node_beta
    = (Ret tt, a')
    ∧ peers a'
      = <[KStr "Node_Delta" := Examples.delta_record]>
          (peers Examples.node_beta)
    ∧ trace a'
      = trace Examples.node_beta
        ++ [Print (Discovered 2); Print (DiscoveryError KeyError)].
Proof.
  apply (incomplete_record_is_cached Examples.node_beta
           Examples.broken_answer
           (Examples.obj [("success", JBool true); ("peer_count", JNum 2);
                          ("peers", JArr [Examples.delta_record;
                                          Examples.gamma_record])])
           Examples.delta_record [Examples.gamma_record]
           (KStr "Node_Delta") KeyError).
  - reflexivity.
  - reflexivity.
  - vm_compute. reflexivity.
  - vm_compute. reflexivity.
  - vm_compute. reflexivity.
  - left. vm_compute. reflexivity.
Defined.


Lemma list_peers_raises_after_incomplete_record_witness :
  ∃ e', (list_peers (discover_round (Ret Examples.broken_answer)
                       Examples.node_beta).2).2 = Raise e'.
Proof.
  apply (list_peers_raises_after_incomplete_record Examples.node_beta
           Examples.broken_answer
           (Examples.obj [("success", JBool true); ("peer_count", JNum 2);
                          ("peers", JArr [Examples.delta_record;
                                          Examples.gamma_record])])
           Examples.delta_record [Examples.gamma_record]
           (KStr "Node_Delta") KeyError).
  - reflexivity.
  - reflexivity.
  - vm_compute. reflexivity.
  - vm_compute. reflexivity.
  - vm_compute. reflexivity.
  - vm_compute. reflexivity.
Defined.

End AgentMore.

(** ** The node's requests at the registry *)

Module EndToEnd.
Import Py PyFacts ServerFacts.

Section WithWire.
Context {W : MeshNode.Wire}.

Lemma register_body_fields (a : MeshNode.mesh_node) :
  ∃ m, MeshNode.register_body a = JObj m
       ∧ m !! "node_id" = Some (JStr (MeshNode.node_id a))
       ∧ m !! "port" = Some (JNum (MeshNode.listen_port a))
       ∧ m !! "public_key" = None.
Proof.
  unfold MeshNode.register_body. eexists. split; [reflexivity|].
  repeat split; by simplify_map_eq.
Qed.

Lemma id_body_fields (a : MeshNode.mesh_node) :
  ∃ m, MeshNode.id_body a = JObj m
       ∧ m !! "node_id" = Some (JStr (MeshNode.node_id a)).
Proof.
  unfold MeshNode.id_body. eexists. split; [reflexivity|].
  by simplify_map_eq.
Qed.

Lemma registration_filed
    (a : MeshNode.mesh_node) (w : Server.server) (ip : string) :
  ∃ info w',
    Server.register_node (Server.mkRequest (MeshNode.register_body a) ip) w
    = (Ret (Server.mkResponse 201
              (Server.Registered (JStr (MeshNode.node_id a)) info)), w')
    ∧ Server.active_nodes w'
      = <[KStr (MeshNode.node_id a) :=
            Server.mkNode (JStr (MeshNode.node_id a)) ip
              (JNum (MeshNode.listen_port a)) JNull
              (Server.clock w (Server.ticks w))
              (Server.clock w (S (Server.ticks w)))]>
          (Server.active_nodes w).
Proof.
  destruct (register_body_fields a) as (m & Hm & Hid & Hp & Hpk).
  rewrite (register_cases_obj _ m w) by (by rewrite <- Hm).
  rewrite Hid, Hp, Hpk. cbn [key_of default Server.remote_addr].
  do 2 eexists. split; reflexivity.
Qed.

(** X27.  The registration a node sends is always accepted by the
    registry: [register_node] answers 201 to the body [register]
    builds, whatever the node's id, and files under that id a record
    with the node's listen port, the address the request came from and
    no public key; no record under another id is touched. *)
Theorem node_registration_is_accepted
    (a : MeshNode.mesh_node) (w : Server.server) (ip : string) :
  ∃ info w',
    Server.register_node (Server.mkRequest (MeshNode.register_body a) ip) w
    = (Ret (Server.mkResponse 201
              (Server.Registered (JStr (MeshNode.node_id a)) info)), w')
    ∧ Server.active_nodes w' !! KStr (MeshNode.node_id a)
      = Some (Server.mkNode (JStr (MeshNode.node_id a)) ip
                (JNum (MeshNode.listen_port a)) JNull
                (Server.clock w (Server.ticks w))
                (Server.clock w (S (Server.ticks w))))
    ∧ (∀ k, k ≠ KStr (MeshNode.node_id a) →
            Server.active_nodes w' !! k = Server.active_nodes w !! k).
Proof.
  destruct (registration_filed a w ip) as (info & w' & Hreg & Hmap).
  exists info, w'. split; [exact Hreg|]. rewrite Hmap. split.
  - apply lookup_insert_eq.
  - intros k Hne. by apply lookup_insert_ne.
Qed.

(** X28.  Once its registration is filed, what a node gets for its
    heartbeat and its unregistration turns on its id alone.  With a
    non-empty id the heartbeat is answered 200 and the unregistration
    200, after which the record is gone; with the empty id both are
    answered 400 and the record stays, out of the node's reach. *)
Theorem node_requests_after_registration
    (a : MeshNode.mesh_node) (w : Server.server) (ip : string) :
  let id := MeshNode.node_id a in
  let w1 :=
    (Server.register_node (Server.mkRequest (MeshNode.register_body a) ip) w).2
  in
  let beat := Server.heartbeat (Server.mkRequest (MeshNode.id_body a) ip) w1 in
  let leave :=
    Server.unregister_node (Server.mkRequest (MeshNode.id_body a) ip) w1 in
  (id ≠ "" →
     beat.1 = Ret (Server.mkResponse 200 Server.HeartbeatReceived)
     ∧ leave.1 = Ret (Server.mkResponse 200 (Server.Unregistered (JStr id)))
     ∧ Server.active_nodes leave.2 !! KStr id = None)
  ∧ (id = "" →
     beat = (Ret (Server.mkResponse 400 (Server.Failure "node_id required")),
             w1)
     ∧ leave
       = (Ret (Server.mkResponse 400 (Server.Failure "node_id required")),
          w1)
     ∧ is_Some (Server.active_nodes w1 !! KStr id)).
Proof.
  intros id w1 beat leave.
  destruct (registration_filed a w ip) as (info & w' & Hreg & Hmap).
  assert (Hw1 : w1 = w') by (unfold w1; by rewrite Hreg).
  assert (Hin : is_Some (Server.active_nodes w' !! KStr (MeshNode.node_id a))).
  { rewrite Hmap, lookup_insert_eq. by eexists. }
  destruct Hin as [n Hin].
  destruct (id_body_fields a) as (m & Hm & Hid).
  assert (Hget : Py.get (MeshNode.id_body a) "node_id" JNull = Ret (JStr id)).
  { rewrite Hm. simpl. by rewrite Hid. }
  subst beat leave. rewrite heartbeat_cases, unregister_cases.
  cbn [Server.get_json]. rewrite Hget, Hw1. cbn [truthy key_of].
  fold id in Hin. split.
  - intros Hne. assert (String.eqb id "" = false) as -> by
      (by apply String.eqb_neq).
    cbn [negb]. rewrite Hin. cbn [fst snd Server.set_active_nodes
                                  Server.active_nodes].
    split; [done|]. split; [done|]. apply lookup_delete_eq.
  - intros Hempty. rewrite Hempty in *. cbn [String.eqb negb].
    split; [done|]. split; [done|]. by eexists.
Qed.

End WithWire.

#[local] Existing Instance Examples.loopback.

Lemma node_requests_after_registration_witness :
  (Server.heartbeat
     (Server.mkRequest (MeshNode.id_body Examples.node_beta) "127.0.0.1")
     (Server.register_node
        (Server.mkRequest (MeshNode.register_body Examples.node_beta)
                          "127.0.0.1")
        Examples.empty_server).2).1
  = Ret (Server.mkResponse 200 Server.HeartbeatReceived).
Proof.
  destruct (node_requests_after_registration Examples.node_beta
              Examples.empty_server "127.0.0.1") as [Hok _].
  destruct Hok as (Hbeat & _ & _); [discriminate|exact Hbeat].
Defined.

End EndToEnd.
